(** * The summary command of the Discord bot ([src/cogs/summary.py])

    A shallow embedding of [MessageFetcher] and of the Python and discord.py
    operations it relies on, followed by the properties of the argument
    parser, the message fetcher, the transcript formatter and the command
    handler. *)

From Stdlib Require Import String Ascii DecimalString.
From Stdlib Require DecimalPos.
From Stdlib Require Import List ZArith NArith Lia Bool Sorted.
Import ListNotations.

Local Open Scope Z_scope.

(** * Python strings

    A Python [str] is a sequence of Unicode code points.  Literals of the
    source are written [lit "..."]: the UTF-8 bytes of the Rocq literal are
    decoded into code points. *)

Module PyStr.

Definition char := N.
Definition str := list char.

Fixpoint utf8_decode (bs : list N) : str :=
  match bs with
  | [] => []
  | b :: r =>
      if (b <? 128)%N then b :: utf8_decode r
      else if (b <? 224)%N then
        match r with
        | b1 :: r1 => ((b - 192) * 64 + (b1 - 128))%N :: utf8_decode r1
        | _ => []
        end
      else if (b <? 240)%N then
        match r with
        | b1 :: b2 :: r2 =>
            ((b - 224) * 4096 + (b1 - 128) * 64 + (b2 - 128))%N :: utf8_decode r2
        | _ => []
        end
      else
        match r with
        | b1 :: b2 :: b3 :: r3 =>
            ((b - 240) * 262144 + (b1 - 128) * 4096 + (b2 - 128) * 64 + (b3 - 128))%N
              :: utf8_decode r3
        | _ => []
        end
  end.

Definition lit (s : string) : str :=
  utf8_decode (map N_of_ascii (list_ascii_of_string s)).

(** [str.isspace] for one character, which is also the separator test of
    [str.split()] and [str.strip()] (CPython's [_PyUnicode_IsWhitespace]). *)
Definition isspace (c : char) : bool :=
  ((9 <=? c) && (c <=? 13) || (28 <=? c) && (c <=? 32)
   || (c =? 133) || (c =? 160) || (c =? 5760)
   || (8192 <=? c) && (c <=? 8202)
   || (c =? 8232) || (c =? 8233) || (c =? 8239) || (c =? 8287)
   || (c =? 12288))%N.

Fixpoint lstrip (s : str) : str :=
  match s with
  | c :: r => if isspace c then lstrip r else s
  | [] => []
  end.

Definition rstrip (s : str) : str := rev (lstrip (rev s)).

(** [s.strip()] *)
Definition strip (s : str) : str := rstrip (lstrip s).

(** [s.split()]: the maximal runs of non-whitespace characters, in order.
    [cur] holds the token being read, last character first. *)
Fixpoint split_from (cur : str) (s : str) : list str :=
  match s with
  | [] => match cur with [] => [] | _ => [rev cur] end
  | c :: r =>
      if isspace c then
        match cur with
        | [] => split_from [] r
        | _ => rev cur :: split_from [] r
        end
      else split_from (c :: cur) r
  end.

Definition split (s : str) : list str := split_from [] s.

(** [s.startswith(p)] *)
Fixpoint startswith (s p : str) : bool :=
  match p, s with
  | [], _ => true
  | _ :: _, [] => false
  | a :: p', b :: s' => (a =? b)%N && startswith s' p'
  end.

(** [sep.join(xs)] *)
Fixpoint join (sep : str) (xs : list str) : str :=
  match xs with
  | [] => []
  | [x] => x
  | x :: rest => x ++ sep ++ join sep rest
  end.

(** [str(k)] for an [int]. *)
Definition str_of_int (k : Z) : str :=
  map N_of_ascii (list_ascii_of_string (NilZero.string_of_int (Z.to_int k))).

(** ** [int(s)]

    CPython first maps the string to ASCII
    ([_PyUnicode_TransformDecimalAndSpaceToASCII]): characters below 127 are
    kept, other whitespace becomes a blank, other decimal digits become the
    ASCII digit of their value and everything else a question mark.  The
    ASCII text is then read in base 10 ([PyLong_FromString]). *)

(** The code points of digit zero of the decimal digit blocks (general
    category Nd, Unicode 14.0.0); each is followed by its digits one to
    nine. *)
Definition decimal_zeros : list N :=
  [48; 1632; 1776; 1984; 2406; 2534; 2662; 2790; 2918; 3046; 3174; 3302;
   3430; 3558; 3664; 3792; 3872; 4160; 4240; 6112; 6160; 6470; 6608; 6784;
   6800; 6992; 7088; 7232; 7248; 42528; 43216; 43264; 43472; 43504; 43600;
   44016; 65296; 66720; 68912; 69734; 69872; 69942; 70096; 70384; 70736;
   70864; 71248; 71360; 71472; 71904; 72016; 72784; 73040; 73120; 92768;
   92864; 93008; 120782; 120792; 120802; 120812; 120822; 123200; 123632;
   125264; 130032]%N.

Definition to_decimal (c : char) : option N :=
  match find (fun z => (z <=? c) && (c <? z + 10))%N decimal_zeros with
  | Some z => Some (c - z)%N
  | None => None
  end.

Definition to_ascii (c : char) : char :=
  if (c <? 127)%N then c
  else if isspace c then 32%N
  else match to_decimal c with
       | Some d => (48 + d)%N
       | None => 63%N
       end.

(** C's [isspace] in the "C" locale ([Py_ISSPACE]). *)
Definition c_isspace (c : char) : bool :=
  ((9 <=? c) && (c <=? 13) || (c =? 32))%N.

Fixpoint skip_spaces (s : str) : str :=
  match s with
  | c :: r => if c_isspace c then skip_spaces r else s
  | [] => []
  end.

Definition digit_value (c : char) : option Z :=
  if ((48 <=? c) && (c <=? 57))%N then Some (Z.of_N (c - 48)) else None.

(** The digit scan: digits and single underscores between them.  Returns the
    value read, the number of digits and the unread rest; fails on a doubled
    or trailing underscore. *)
Fixpoint scan_digits (acc : Z) (digits : nat) (prev_underscore : bool)
    (s : str) : option (Z * nat * str) :=
  match s with
  | [] => if prev_underscore then None else Some (acc, digits, [])
  | c :: r =>
      match digit_value c with
      | Some d => scan_digits (acc * 10 + d) (S digits) false r
      | None =>
          if (c =? 95)%N then
            if prev_underscore then None else scan_digits acc digits true r
          else if prev_underscore then None else Some (acc, digits, s)
      end
  end.

(** [sys.int_info.default_max_str_digits] *)
Definition max_str_digits : nat := 4300.

(** [int(s)]: [Some k] when the conversion succeeds, [None] when it raises
    [ValueError]. *)
Definition int (s : str) : option Z :=
  let a := skip_spaces (map to_ascii s) in
  let '(negative, a) :=
    match a with
    | 43%N :: r => (false, r)
    | 45%N :: r => (true, r)
    | _ => (false, a)
    end in
  match a with
  | 95%N :: _ => None
  | _ =>
      match scan_digits 0 0 false a with
      | Some (v, digits, rest) =>
          if (digits =? 0)%nat then None
          else if (max_str_digits <? digits)%nat then None
          else match skip_spaces rest with
               | [] => Some (if negative then - v else v)
               | _ => None
               end
      | None => None
      end
  end.

End PyStr.

Import PyStr.

(** * discord.py objects

    Only the attributes the cog reads are kept. *)

Record User := {
  user_id : Z;            (* [user.id] *)
  name : str;
  bot : bool
}.

(** [user.mention] *)
Definition mention (u : User) : str :=
  lit "<@" ++ str_of_int (user_id u) ++ lit ">".

Record Embed := { description : option str }.

Record Attachment := { url : str }.

Record Message := {
  msg_id : Z;             (* [message.id], a snowflake: later messages have larger ids *)
  author : User;
  content : str;
  embeds : list Embed;
  attachments : list Attachment;
  mentions : list User
}.

(** An instance of [Exception]; [str_of_exn] is [str(e)]. *)
Inductive Exn := Exception (text : str).

Definition str_of_exn (e : Exn) : str :=
  match e with Exception text => text end.

Inductive Result (A : Type) :=
| Ok (a : A)
| Raise (e : Exn).
Arguments Ok {A} a.
Arguments Raise {A} e.

(** What iterating [channel.history(limit=None)] produces: the messages of
    the channel, newest first, until the log is exhausted or a request to
    the platform raises. *)
Inductive History :=
| Exhausted
| Yield (msg : Message) (rest : History)
| Fault (e : Exn).

(** A channel whose whole log can be read. *)
Fixpoint stream (l : list Message) : History :=
  match l with
  | [] => Exhausted
  | msg :: rest => Yield msg (stream rest)
  end.

(** The messages [l], newest first, followed by whatever [h] produces. *)
Fixpoint prepend (l : list Message) (h : History) : History :=
  match l with
  | [] => h
  | msg :: rest => Yield msg (prepend rest h)
  end.

Fixpoint take (k : nat) (h : History) : History :=
  match k with
  | O => Exhausted
  | S k' =>
      match h with
      | Yield msg rest => Yield msg (take k' rest)
      | _ => h
      end
  end.

(** [channel.history(limit=limit)]: with a limit the iterator stops after
    that many messages without asking the platform for more; a limit below
    one yields nothing. *)
Definition history (channel : History) (limit : option Z) : History :=
  match limit with
  | None => channel
  | Some n => take (Z.to_nat n) channel
  end.

(** [commands.Context]: the invoking message, the channel and the answer of
    the platform to [await ctx.send(text)] ([None]: the message is
    delivered; [Some e]: the call raises [e]). *)
Record Context := {
  message : Message;
  channel : History;
  send_fault : str -> option Exn
}.

(** The reply of the LLM client: the [message.content] of each choice. *)
Record Response := { choices : list str }.

(** [src.sdk.llm.LLMServices], the client built in [__init__] with the
    system prompt; the cog only calls [get_oai_reply(prompt, image_urls)]. *)
Record LLMServices := {
  get_oai_reply : str -> list str -> Result Response
}.

(** * Effects of one invocation

    [sent] are the replies delivered to the channel, oldest first;
    [never_awaited] are the coroutine objects that were created by calling
    [ctx.send] and dropped without being awaited, so that their body never
    ran; [llm_calls] are the requests made to the LLM client. *)

Record World := {
  sent : list str;
  never_awaited : list str;
  llm_calls : list (str * list str)
}.

Definition quiet : World :=
  {| sent := []; never_awaited := []; llm_calls := [] |}.

Definition M (A : Type) : Type := World -> Result A * World.

Definition ret {A} (a : A) : M A := fun w => (Ok a, w).

Definition bind {A B} (m : M A) (k : A -> M B) : M B :=
  fun w =>
    match m w with
    | (Ok a, w') => k a w'
    | (Raise e, w') => (Raise e, w')
    end.

(** [try: body except Exception as e: handler] *)
Definition try_except {A} (body : M A) (handler : Exn -> M A) : M A :=
  fun w =>
    match body w with
    | (Ok a, w') => (Ok a, w')
    | (Raise e, w') => handler e w'
    end.

Definition lift {A} (r : Result A) : M A := fun w => (r, w).

Notation "x <- m ;; k" := (bind m (fun x => k))
  (at level 61, m at next level, right associativity).
Notation "' pat <- m ;; k" := (bind m (fun x => match x with pat => k end))
  (at level 61, pat pattern, m at next level, right associativity).

(** [await ctx.send(text)] *)
Definition send (ctx : Context) (text : str) : M unit :=
  fun w =>
    match send_fault ctx text with
    | None =>
        (Ok tt, {| sent := sent w ++ [text];
                   never_awaited := never_awaited w;
                   llm_calls := llm_calls w |})
    | Some e => (Raise e, w)
    end.

(** [ctx.send(text)] as a bare expression statement: calling the coroutine
    function only builds a coroutine object, which is then discarded. *)
Definition send_without_await (ctx : Context) (text : str) : M unit :=
  fun w =>
    (Ok tt, {| sent := sent w;
               never_awaited := never_awaited w ++ [text];
               llm_calls := llm_calls w |}).

(** * The cog *)

Module MessageFetcher.

(** [self]: the cog holds the LLM client. *)
Record Cog := { llm_services : LLMServices }.

Definition newline : str := [10%N].

(** [SUMMARY_MESSAGE.format(history_count=..., chat_history_string=...)] *)
Definition SUMMARY_MESSAGE (history_count : Z) (chat_history_string : str) : str :=
  newline ++ lit "總結以下 " ++ str_of_int history_count ++ lit " 則消息：" ++ newline
    ++ chat_history_string ++ newline.

Definition _parse_args (ctx : Context) (prompt : str) : M (Z * option User) :=
  let args := split (strip prompt) in
  let history_count := 20 in
  let target_user : option User := None in
  match args with
  | [] => ret (history_count, target_user)
  | first :: _ =>
      match int first with
      | Some k =>
          let history_count := k in
          match (1 <? length args)%nat, mentions (message ctx) with
          | true, u :: _ => ret (history_count, Some u)
          | _, _ => ret (history_count, target_user)
          end
      | None =>
          _ <- send_without_await ctx
                 (lit "你輸入的不是數字，將自動總結最近 20 則消息。") ;;
          match mentions (message ctx) with
          | u :: _ => ret (history_count, Some u)
          | [] => ret (history_count, target_user)
          end
      end
  end.

(** The test of the unfiltered loop: [not msg.author.bot and not
    msg.content.startswith("!sum")]. *)
Definition keeps (msg : Message) : bool :=
  negb (bot (author msg)) && negb (startswith (content msg) (lit "!sum")).

(** The test of the filtered loop. *)
Definition keeps_from (target_user : User) (msg : Message) : bool :=
  (user_id (author msg) =? user_id target_user)
  && negb (bot (author msg))
  && negb (startswith (content msg) (lit "!sum")).

(** The loop over [channel.history(limit=None)] with its [break]. *)
Fixpoint scan_for (target_user : User) (history_count : Z) (h : History)
    (messages : list Message) : Result (list Message) :=
  match h with
  | Exhausted => Ok messages
  | Fault e => Raise e
  | Yield msg rest =>
      if keeps_from target_user msg then
        let messages := messages ++ [msg] in
        if Z.of_nat (length messages) =? history_count then Ok messages
        else scan_for target_user history_count rest messages
      else scan_for target_user history_count rest messages
  end.

(** The loop over [channel.history(limit=history_count)]. *)
Fixpoint collect (h : History) (messages : list Message) : Result (list Message) :=
  match h with
  | Exhausted => Ok messages
  | Fault e => Raise e
  | Yield msg rest =>
      if keeps msg then collect rest (messages ++ [msg])
      else collect rest messages
  end.

Definition _fetch_messages (channel : History) (history_count : Z)
    (target_user : option User) : Result (list Message) :=
  let collected :=
    match target_user with
    | Some target_user => scan_for target_user history_count (history channel None) []
    | None => collect (history channel (Some history_count)) []
    end in
  match collected with
  | Ok messages => Ok (rev messages)
  | Raise e => Raise e
  end.

(** [[embed.description for embed in embeds if embed.description]] *)
Fixpoint embed_descriptions (es : list Embed) : list str :=
  match es with
  | [] => []
  | embed :: rest =>
      match description embed with
      | Some (c :: d) => (c :: d) :: embed_descriptions rest
      | _ => embed_descriptions rest
      end
  end.

(** The body of the formatting loop for one message: the content of its line
    and what it appends to [attachments]. *)
Definition content_text (msg : Message) : str * list str :=
  match embeds msg with
  | _ :: _ =>
      let descriptions := embed_descriptions (embeds msg) in
      (lit "嵌入內容: " ++ join (lit ", ") descriptions, descriptions)
  | [] =>
      match attachments msg with
      | _ :: _ =>
          let attachment_urls := map url (attachments msg) in
          (lit "附件: " ++ join (lit ", ") attachment_urls, attachment_urls)
      | [] => (content msg, [])
      end
  end.

Fixpoint format_loop (messages : list Message) (chat_history_lines : list str)
    (attachments : list str) : list str * list str :=
  match messages with
  | [] => (chat_history_lines, attachments)
  | msg :: rest =>
      let '(text, found) := content_text msg in
      format_loop rest
        (chat_history_lines ++ [name (author msg) ++ lit ": " ++ text])
        (attachments ++ found)
  end.

Definition _format_messages (messages : list Message) : str * list str :=
  let '(chat_history_lines, attachments) := format_loop messages [] [] in
  (join newline chat_history_lines, attachments).

Definition _create_summary_prompt (history_count : Z) (chat_history_string : str) : str :=
  SUMMARY_MESSAGE history_count chat_history_string.

(** [response.choices[0]] raises [IndexError] on an empty list. *)
Definition IndexError : Exn := Exception (lit "list index out of range").

Definition _call_llm (self : Cog) (prompt : str) (attachments : list str) : M str :=
  fun w =>
    let w' := {| sent := sent w;
                 never_awaited := never_awaited w;
                 llm_calls := llm_calls w ++ [(prompt, attachments)] |} in
    match get_oai_reply (llm_services self) prompt attachments with
    | Ok response =>
        match choices response with
        | reply :: _ => (Ok reply, w')
        | [] => (Raise IndexError, w')
        end
    | Raise e => (Raise e, w')
    end.

Definition sum (self : Cog) (ctx : Context) (prompt : str) : M unit :=
  try_except
    ('(history_count, target_user) <- _parse_args ctx prompt ;;
     messages <- lift (_fetch_messages (channel ctx) history_count target_user) ;;
     match messages with
     | [] =>
         match target_user with
         | Some target_user =>
             send ctx (lit "在此頻道中找不到 " ++ mention target_user
                         ++ lit " 的相關訊息。")
         | None => send ctx (lit "此頻道沒有可供總結的訊息。")
         end
     | _ :: _ =>
         let '(chat_history_string, attachments) := _format_messages messages in
         let final_prompt := _create_summary_prompt history_count chat_history_string in
         summary <- _call_llm self final_prompt attachments ;;
         send ctx summary
     end)
    (fun e => send ctx (lit "發生錯誤：" ++ str_of_exn e)).

End MessageFetcher.

Import MessageFetcher.

(** * Vocabulary of the properties *)

(** [s] holds whitespace only (or nothing). *)
Definition blank (s : str) : bool := forallb isspace s.

(** [s] holds no whitespace. *)
Definition solid (s : str) : bool := forallb (fun c => negb (isspace c)) s.

(** [rest] is empty or starts with whitespace. *)
Definition at_boundary (rest : str) : Prop :=
  match rest with
  | [] => True
  | c :: _ => isspace c = true
  end.

(** [tok] is the first whitespace-separated token of [prompt] and [rest] is
    what follows it. *)
Definition first_token (prompt tok rest : str) : Prop :=
  exists ws,
    prompt = ws ++ tok ++ rest /\ blank ws = true /\
    tok <> [] /\ solid tok = true /\ at_boundary rest.

(** The correction notice of the parser. *)
Definition notice : str := lit "你輸入的不是數字，將自動總結最近 20 則消息。".

(** The world after a coroutine for [text] was created and dropped. *)
Definition dropping (text : str) (w : World) : World :=
  {| sent := sent w; never_awaited := never_awaited w ++ [text];
     llm_calls := llm_calls w |}.

(** The world after [text] was delivered. *)
Definition delivering (text : str) (w : World) : World :=
  {| sent := sent w ++ [text]; never_awaited := never_awaited w;
     llm_calls := llm_calls w |}.

(** The order of a channel log, newest message first, and the order of a
    transcript, oldest message first. *)
Definition newest_first (l : list Message) : Prop :=
  StronglySorted (fun a b => msg_id b < msg_id a) l.

Definition oldest_first (l : list Message) : Prop :=
  StronglySorted (fun a b => msg_id a < msg_id b) l.

(** The formatting of one message as the specification words it: the embed
    branch only when some embed has a non-empty description. *)
Definition spec_content_text (msg : Message) : str * list str :=
  match embed_descriptions (embeds msg) with
  | _ :: _ as descriptions =>
      (lit "嵌入內容: " ++ join (lit ", ") descriptions, descriptions)
  | [] =>
      match attachments msg with
      | _ :: _ =>
          (lit "附件: " ++ join (lit ", ") (map url (attachments msg)),
           map url (attachments msg))
      | [] => (content msg, [])
      end
  end.

(** The two replies of the handler to an empty fetch. *)
Definition no_messages_reply (target_user : option User) : str :=
  match target_user with
  | Some target_user =>
      lit "在此頻道中找不到 " ++ mention target_user ++ lit " 的相關訊息。"
  | None => lit "此頻道沒有可供總結的訊息。"
  end.

(** The reply of the [except] clause: [f"發生錯誤：{e}"]. *)
Definition error_reply (e : Exn) : str := lit "發生錯誤：" ++ str_of_exn e.

(** The [except] clause of the handler. *)
Definition on_error (ctx : Context) : Exn -> M unit :=
  fun e => send ctx (error_reply e).

(** The line of one message in the transcript and the references it adds
    to [attachments]. *)
Definition line_of (msg : Message) : str :=
  name (author msg) ++ lit ": " ++ fst (content_text msg).

Definition references_of (msg : Message) : list str := snd (content_text msg).

(** The world after a request to the LLM client was recorded. *)
Definition requesting (prompt : str) (attachments : list str) (w : World) : World :=
  {| sent := sent w; never_awaited := never_awaited w;
     llm_calls := llm_calls w ++ [(prompt, attachments)] |}.

(** The request the handler makes for the fetched messages: the prompt built
    from the requested count and the transcript, and the references. *)
Definition request_for (history_count : Z) (messages : list Message)
    : str * list str :=
  (_create_summary_prompt history_count (fst (_format_messages messages)),
   snd (_format_messages messages)).

(** The world in which the replies of the handler are delivered: the world
    after the parser, with the request to the LLM client when the fetch
    returned messages. *)
Definition before_reply (history_count : Z)
    (fetched : Result (list Message)) (w1 : World) : World :=
  match fetched with
  | Ok (msg :: rest) =>
      requesting (fst (request_for history_count (msg :: rest)))
        (snd (request_for history_count (msg :: rest))) w1
  | _ => w1
  end.

(** The messages a history produces before it ends or fails, newest
    first. *)
Fixpoint yielded (h : History) : list Message :=
  match h with
  | Yield msg rest => msg :: yielded rest
  | _ => []
  end.

(** The code points of the digits of a decimal number, first digit first. *)
Fixpoint uint_codes (d : Decimal.uint) : str :=
  match d with
  | Decimal.Nil => []
  | Decimal.D0 r => 48%N :: uint_codes r
  | Decimal.D1 r => 49%N :: uint_codes r
  | Decimal.D2 r => 50%N :: uint_codes r
  | Decimal.D3 r => 51%N :: uint_codes r
  | Decimal.D4 r => 52%N :: uint_codes r
  | Decimal.D5 r => 53%N :: uint_codes r
  | Decimal.D6 r => 54%N :: uint_codes r
  | Decimal.D7 r => 55%N :: uint_codes r
  | Decimal.D8 r => 56%N :: uint_codes r
  | Decimal.D9 r => 57%N :: uint_codes r
  end.

(** The number of decimal digits of [str(k)] (the sign is not counted). *)
Definition decimal_digits (k : Z) : nat := length (str_of_int (Z.abs k)).

(** * Sample data for the concrete runs *)

Module Sample.

Definition alice : User := {| user_id := 1; name := lit "alice"; bot := false |}.
Definition bob : User := {| user_id := 2; name := lit "bob"; bot := false |}.
Definition helper_bot : User := {| user_id := 9; name := lit "helper"; bot := true |}.

Definition text_message (id : Z) (who : User) (text : string) : Message :=
  {| msg_id := id; author := who; content := lit text;
     embeds := []; attachments := []; mentions := [] |}.

(** A context whose invoking message mentions [who], on a platform that
    delivers every reply. *)
Definition invocation (who : list User) (log : History) : Context :=
  {| message := {| msg_id := 100; author := alice; content := lit "!sum";
                   embeds := []; attachments := []; mentions := who |};
     channel := log;
     send_fault := fun _ => None |}.

(** A client that answers every request with one choice. *)
Definition answering (reply : string) : MessageFetcher.Cog :=
  {| MessageFetcher.llm_services :=
       {| get_oai_reply := fun _ _ => Ok {| choices := [lit reply] |} |} |}.

(** A client whose request raises. *)
Definition failing (why : string) : MessageFetcher.Cog :=
  {| MessageFetcher.llm_services :=
       {| get_oai_reply := fun _ _ => Raise (Exception (lit why)) |} |}.

End Sample.

(** A log of three messages, newest first: a bot reply, then two human
    messages. *)
Definition short_log : list Message :=
  [ Sample.text_message 3 Sample.helper_bot "beep";
    Sample.text_message 2 Sample.alice "second";
    Sample.text_message 1 Sample.bob "first" ].

(** A log, newest first, in which alice wrote the messages 5, 3 and 1. *)
Definition busy_log : list Message :=
  [ Sample.text_message 5 Sample.alice "three";
    Sample.text_message 4 Sample.bob "noise";
    Sample.text_message 3 Sample.alice "two";
    Sample.text_message 2 Sample.alice "!sum 3";
    Sample.text_message 1 Sample.alice "one" ].

(** A context like [Sample.invocation] on a platform that refuses texts of
    more than 2000 characters. *)
Definition strict_invocation (who : list User) (log : History) : Context :=
  {| message := message (Sample.invocation who log);
     channel := log;
     send_fault := fun text =>
       if (2000 <? length text)%nat
       then Some (Exception (lit "400 Bad Request"))
       else None |}.

(** A client whose reply has 2001 characters. *)
Definition verbose : MessageFetcher.Cog :=
  {| MessageFetcher.llm_services :=
       {| get_oai_reply := fun _ _ => Ok {| choices := [repeat 97%N 2001] |} |} |}.

(** A context on a platform that refuses every text. *)
Definition muted_invocation (who : list User) (log : History) : Context :=
  {| message := message (Sample.invocation who log);
     channel := log;
     send_fault := fun _ => Some (Exception (lit "403 Forbidden")) |}.

(** A message with an embed that has no description, and a picture. *)
Definition preview_without_text : Message :=
  {| msg_id := 7; author := Sample.alice; content := lit "look";
     embeds := [{| description := None |}];
     attachments := [{| url := lit "http://x/y.png" |}];
     mentions := [] |}.

Definition plain_message : Message := Sample.text_message 8 Sample.bob "hi".

Definition picture_message : Message :=
  {| msg_id := 9; author := Sample.bob; content := [];
     embeds := [];
     attachments := [{| url := lit "http://x/y.png" |}; {| url := lit "http://x/z.png" |}];
     mentions := [] |}.

Definition embed_message : Message :=
  {| msg_id := 10; author := Sample.alice; content := lit "see this";
     embeds := [{| description := Some (lit "desc1") |}];
     attachments := []; mentions := [] |}.

Definition single_picture_message : Message :=
  {| msg_id := 11; author := Sample.bob; content := [];
     embeds := [];
     attachments := [{| url := lit "http://x/y.png" |}];
     mentions := [] |}.

(** * Tactics *)

Ltac by_computation := vm_compute; repeat split; try reflexivity; try discriminate.

Ltac sorted_by_ids :=
  unfold newest_first, oldest_first;
  repeat (constructor; try (vm_compute; reflexivity)).

(** * Facts about the string operations *)

Lemma split_from_blank (ws cur : str) :
  blank ws = true ->
  split_from cur ws = match cur with [] => [] | _ => [rev cur] end.
Proof.
  revert cur. induction ws as [|c ws IH]; simpl; intros cur H; [reflexivity|].
  apply andb_prop in H as [Hc Hws]. rewrite Hc.
  destruct cur; rewrite (IH []) by assumption; reflexivity.
Qed.

Lemma split_from_leading (ws s : str) :
  blank ws = true -> split_from [] (ws ++ s) = split_from [] s.
Proof.
  induction ws as [|c ws IH]; simpl; intros H; [reflexivity|].
  apply andb_prop in H as [Hc Hws]. rewrite Hc. auto.
Qed.

Lemma split_from_trailing (s ws cur : str) :
  blank ws = true -> split_from cur (s ++ ws) = split_from cur s.
Proof.
  intros Hws. revert cur.
  induction s as [|c s IH]; intros cur; simpl.
  - apply split_from_blank; assumption.
  - destruct (isspace c); [destruct cur|]; rewrite ?IH; reflexivity.
Qed.

Lemma split_from_solid (tok cur rest : str) :
  solid tok = true -> split_from cur (tok ++ rest) = split_from (rev tok ++ cur) rest.
Proof.
  revert cur. induction tok as [|c tok IH]; intros cur H; simpl in *; [reflexivity|].
  apply andb_prop in H as [Hc Htok].
  destruct (isspace c); [discriminate|].
  rewrite IH by assumption. rewrite <- app_assoc. reflexivity.
Qed.

Lemma lstrip_decompose (s : str) :
  exists ws, s = ws ++ lstrip s /\ blank ws = true.
Proof.
  induction s as [|c s [ws [E B]]]; simpl.
  - exists []; auto.
  - destruct (isspace c) eqn:Hc.
    + exists (c :: ws); simpl. rewrite Hc, B, <- E. auto.
    + exists []; auto.
Qed.

Lemma blank_rev (ws : str) : blank ws = true -> blank (rev ws) = true.
Proof.
  unfold blank. rewrite !forallb_forall. intros H c Hin.
  apply H, in_rev; assumption.
Qed.

Lemma rstrip_decompose (s : str) :
  exists ws, s = rstrip s ++ ws /\ blank ws = true.
Proof.
  destruct (lstrip_decompose (rev s)) as [ws [E B]].
  exists (rev ws). split; [|apply blank_rev; assumption].
  unfold rstrip. rewrite <- rev_app_distr, <- E, rev_involutive. reflexivity.
Qed.

(** The [strip()] before [split()] changes nothing. *)
Lemma split_strip (s : str) : split (strip s) = split s.
Proof.
  unfold split, strip.
  destruct (rstrip_decompose (lstrip s)) as [ws [E B]].
  destruct (lstrip_decompose s) as [ws' [E' B']].
  rewrite E' at 2. rewrite split_from_leading by assumption.
  rewrite E at 2. rewrite split_from_trailing by assumption. reflexivity.
Qed.

Lemma split_blank (s : str) : blank s = true -> split (strip s) = [].
Proof.
  intros H. rewrite split_strip. unfold split.
  rewrite split_from_blank by assumption. reflexivity.
Qed.

Lemma split_first_token (prompt tok rest : str) :
  first_token prompt tok rest -> split (strip prompt) = tok :: split rest.
Proof.
  intros [ws (E & Bws & Hne & Htok & Hrest)].
  rewrite split_strip. unfold split. subst prompt.
  rewrite split_from_leading by assumption.
  rewrite split_from_solid by assumption. rewrite app_nil_r.
  assert (Hrev : rev tok <> []).
  { intros E. apply Hne. rewrite <- (rev_involutive tok), E. reflexivity. }
  destruct rest as [|c rest]; simpl in *.
  - destruct (rev tok) eqn:E; [contradiction|]. rewrite <- E, rev_involutive. reflexivity.
  - rewrite Hrest.
    destruct (rev tok) eqn:E; [contradiction|]. rewrite <- E, rev_involutive. reflexivity.
Qed.

Lemma solid_run (s : str) :
  exists tok rest, s = tok ++ rest /\ solid tok = true /\ at_boundary rest.
Proof.
  induction s as [|c s (tok & rest & E & Htok & Hrest)].
  - exists [], []; simpl; auto.
  - destruct (isspace c) eqn:Hc.
    + exists [], (c :: s); simpl; auto.
    + exists (c :: tok), rest; simpl. rewrite Hc, Htok, <- E. auto.
Qed.

Lemma lstrip_head (s : str) :
  match lstrip s with
  | [] => True
  | c :: _ => isspace c = false
  end.
Proof.
  induction s as [|c s IH]; simpl; [exact I|].
  destruct (isspace c) eqn:Hc; [assumption|].
  assumption.
Qed.

(** Every argument string is blank or has a first token. *)
Lemma blank_or_first_token (prompt : str) :
  blank prompt = true \/ exists tok rest, first_token prompt tok rest.
Proof.
  destruct (lstrip_decompose prompt) as [ws [E B]].
  pose proof (lstrip_head prompt) as Hhead.
  destruct (lstrip prompt) as [|c r] eqn:El.
  - left. rewrite E, app_nil_r. assumption.
  - right. destruct (solid_run (c :: r)) as (tok & rest & E2 & Htok & Hrest).
    exists tok, rest, ws. rewrite E, E2. repeat split; try assumption.
    intros ->. simpl in E2. subst rest. simpl in Hrest. congruence.
Qed.

Lemma split_nil_blank (s : str) : split s = [] -> blank s = true.
Proof.
  intros H. destruct (blank_or_first_token s) as [B | (tok & rest & F)]; [assumption|].
  apply split_first_token in F. rewrite split_strip in F. congruence.
Qed.

(** * The argument parser *)

Lemma parse_args_blank (ctx : Context) (prompt : str) (w : World) :
  blank prompt = true -> _parse_args ctx prompt w = (Ok (20, None), w).
Proof.
  intros H. unfold _parse_args. rewrite split_blank by assumption. reflexivity.
Qed.

Lemma parse_args_numeric (ctx : Context) (prompt tok rest : str) (k : Z) (w : World) :
  first_token prompt tok rest -> int tok = Some k ->
  _parse_args ctx prompt w =
    (Ok (k, match split rest, mentions (message ctx) with
            | _ :: _, u :: _ => Some u
            | _, _ => None
            end), w).
Proof.
  intros F Hk. unfold _parse_args.
  rewrite (split_first_token _ _ _ F), Hk.
  destruct (split rest) as [|t ts]; simpl;
    destruct (mentions (message ctx)); reflexivity.
Qed.

Lemma parse_args_non_numeric (ctx : Context) (prompt tok rest : str) (w : World) :
  first_token prompt tok rest -> int tok = None ->
  _parse_args ctx prompt w =
    (Ok (20, hd_error (mentions (message ctx))), dropping notice w).
Proof.
  intros F Hk. unfold _parse_args.
  rewrite (split_first_token _ _ _ F), Hk.
  unfold bind, send_without_await, dropping, notice.
  destruct (mentions (message ctx)); reflexivity.
Qed.

(** The parser never raises. *)
Lemma parse_args_total (ctx : Context) (prompt : str) (w : World) :
  exists history_count target_user w',
    _parse_args ctx prompt w = (Ok (history_count, target_user), w')
    /\ sent w' = sent w /\ llm_calls w' = llm_calls w.
Proof.
  destruct (blank_or_first_token prompt) as [B | (tok & rest & F)].
  - eexists _, _, _. rewrite parse_args_blank by assumption. auto.
  - destruct (int tok) as [k|] eqn:Hk.
    + eexists _, _, _. rewrite (parse_args_numeric _ _ _ _ _ _ F Hk). auto.
    + eexists _, _, _. rewrite (parse_args_non_numeric _ _ _ _ _ F Hk). auto.
Qed.

Lemma first_token_alone (tok : str) :
  tok <> [] -> solid tok = true -> first_token tok tok [].
Proof.
  intros Hne Hs. exists []. rewrite app_nil_r. simpl. auto.
Qed.

Lemma first_token_then (tok rest : str) :
  tok <> [] -> solid tok = true -> at_boundary rest ->
  first_token (tok ++ rest) tok rest.
Proof.
  intros Hne Hs Hr. exists []. simpl. auto.
Qed.

(** C6: the parser resolves [history_count] to 20 for every argument string
    that is empty (or blank) or whose first token is not numeric, and to [k]
    for every argument string whose first whitespace-separated token is a
    valid integer [k], whatever follows that token. *)
Theorem parse_args_history_count (ctx : Context) (prompt : str) (w : World) :
  (blank prompt = true ->
     exists target_user w', _parse_args ctx prompt w = (Ok (20, target_user), w'))
  /\ (forall tok rest, first_token prompt tok rest -> int tok = None ->
     exists target_user w', _parse_args ctx prompt w = (Ok (20, target_user), w'))
  /\ (forall tok rest k, first_token prompt tok rest -> int tok = Some k ->
     exists target_user w', _parse_args ctx prompt w = (Ok (k, target_user), w')).
Proof.
  split; [|split].
  - intros B. eexists _, _. apply parse_args_blank; assumption.
  - intros tok rest F Hk. eexists _, _. apply (parse_args_non_numeric _ _ _ _ _ F Hk).
  - intros tok rest k F Hk. eexists _, _. apply (parse_args_numeric _ _ _ _ _ _ F Hk).
Qed.

Lemma parse_args_history_count_witness :
  let ctx := Sample.invocation [Sample.bob] Exhausted in
  (exists target_user w',
     _parse_args ctx (lit "   ") quiet = (Ok (20, target_user), w'))
  /\ (exists target_user w',
     _parse_args ctx (lit "abc 5") quiet = (Ok (20, target_user), w'))
  /\ (exists target_user w',
     _parse_args ctx (lit "7 @bob and more") quiet = (Ok (7, target_user), w')).
Proof.
  intros ctx. split; [|split].
  - apply (proj1 (parse_args_history_count ctx (lit "   ") quiet)).
    vm_compute. reflexivity.
  - apply (proj1 (proj2 (parse_args_history_count ctx (lit "abc 5") quiet))
             (lit "abc") (lit " 5")).
    + exists []. vm_compute. repeat split; try reflexivity. discriminate.
    + vm_compute. reflexivity.
  - apply (proj2 (proj2 (parse_args_history_count ctx (lit "7 @bob and more") quiet))
             (lit "7") (lit " @bob and more")).
    + exists []. vm_compute. repeat split; try reflexivity. discriminate.
    + vm_compute. reflexivity.
Defined.

Lemma blank_split (s : str) : blank s = true -> split s = [].
Proof.
  intros H. unfold split. rewrite split_from_blank by assumption. reflexivity.
Qed.

Lemma not_blank_split (s : str) :
  blank s = false -> exists t ts, split s = t :: ts.
Proof.
  intros H. destruct (split s) as [|t ts] eqn:E.
  - apply split_nil_blank in E. congruence.
  - eauto.
Qed.

(** C3, as the code has it: when the first token parses as an integer [k],
    [history_count] is [k], and [target_user] is the first mentioned user
    provided that the argument string has a second token and the invocation
    mentions somebody; with a single token, or without mentions,
    [target_user] stays unset. *)
Theorem parse_args_target_user_after_count
    (ctx : Context) (prompt tok rest : str) (k : Z) (w : World) :
  first_token prompt tok rest -> int tok = Some k ->
  (blank rest = false ->
     forall u us, mentions (message ctx) = u :: us ->
     _parse_args ctx prompt w = (Ok (k, Some u), w))
  /\ (blank rest = true -> _parse_args ctx prompt w = (Ok (k, None), w))
  /\ (mentions (message ctx) = [] -> _parse_args ctx prompt w = (Ok (k, None), w)).
Proof.
  intros F Hk. rewrite (parse_args_numeric _ _ _ _ _ _ F Hk).
  split; [|split].
  - intros B u us E. destruct (not_blank_split _ B) as (t & ts & ->).
    rewrite E. reflexivity.
  - intros B. rewrite (blank_split _ B). reflexivity.
  - intros ->. destruct (split rest); reflexivity.
Qed.

Lemma parse_args_target_user_after_count_witness :
  let ctx := Sample.invocation [Sample.bob; Sample.alice] Exhausted in
  _parse_args ctx (lit "7 @bob") quiet = (Ok (7, Some Sample.bob), quiet)
  /\ _parse_args ctx (lit "7") quiet = (Ok (7, None), quiet)
  /\ _parse_args (Sample.invocation [] Exhausted) (lit "7 x") quiet
     = (Ok (7, None), quiet).
Proof.
  intros ctx.
  assert (F1 : first_token (lit "7 @bob") (lit "7") (lit " @bob")).
  { exists []. vm_compute. repeat split; try reflexivity. discriminate. }
  assert (F2 : first_token (lit "7") (lit "7") []).
  { exists []. vm_compute. repeat split; try reflexivity. discriminate. }
  assert (F3 : first_token (lit "7 x") (lit "7") (lit " x")).
  { exists []. vm_compute. repeat split; try reflexivity. discriminate. }
  assert (I7 : int (lit "7") = Some 7) by (vm_compute; reflexivity).
  split; [|split].
  - apply (proj1 (parse_args_target_user_after_count ctx _ _ _ 7 quiet F1 I7)
             eq_refl Sample.bob [Sample.alice] eq_refl).
  - apply (proj1 (proj2 (parse_args_target_user_after_count ctx _ _ _ 7 quiet F2 I7))
             eq_refl).
  - apply (proj2 (proj2 (parse_args_target_user_after_count
                           (Sample.invocation [] Exhausted) _ _ _ 7 quiet F3 I7))
             eq_refl).
Defined.

(** C3 as stated fails: with the single token ["5"] and a mentioned user,
    [target_user] is not set. *)
Lemma parse_args_single_token_counterexample :
  let ctx := Sample.invocation [Sample.bob] Exhausted in
  first_token (lit "5") (lit "5") []
  /\ int (lit "5") = Some 5
  /\ mentions (message ctx) = [Sample.bob]
  /\ _parse_args ctx (lit "5") quiet = (Ok (5, None), quiet)
  /\ ~ (exists w', _parse_args ctx (lit "5") quiet = (Ok (5, Some Sample.bob), w')).
Proof.
  intros ctx. split; [|split; [|split; [|split]]].
  - exists []. vm_compute. repeat split; try reflexivity. discriminate.
  - vm_compute. reflexivity.
  - reflexivity.
  - vm_compute. reflexivity.
  - intros [w' H]. vm_compute in H. discriminate.
Qed.

(** C4: at the argument string ["abc"] the parser returns the default count
    and the first mentioned user, but the correction notice is not sent: the
    call [ctx.send(...)] is not awaited, so the coroutine is created and
    dropped, and the only reply of the whole invocation is the summary. *)
Theorem parse_args_notice_never_sent :
  let ctx := Sample.invocation [Sample.bob]
               (stream [Sample.text_message 1 Sample.bob "hello"]) in
  int (lit "abc") = None
  /\ _parse_args ctx (lit "abc") quiet
     = (Ok (20, Some Sample.bob),
        {| sent := []; never_awaited := [notice]; llm_calls := [] |})
  /\ fst (sum (Sample.answering "a summary") ctx (lit "abc") quiet) = Ok tt
  /\ sent (snd (sum (Sample.answering "a summary") ctx (lit "abc") quiet))
     = [lit "a summary"]
  /\ never_awaited (snd (sum (Sample.answering "a summary") ctx (lit "abc") quiet))
     = [notice].
Proof.
  vm_compute. repeat split; reflexivity.
Qed.

(** * The message fetcher *)

Section Sorting.

Variables (A : Type) (R : A -> A -> Prop).

Lemma StronglySorted_filter (f : A -> bool) (l : list A) :
  StronglySorted R l -> StronglySorted R (filter f l).
Proof.
  induction 1 as [|a l Hs IH Ha]; simpl; [constructor|].
  destruct (f a); [|assumption].
  constructor; [assumption|].
  rewrite Forall_forall in *. intros x Hx.
  apply filter_In in Hx as [Hx _]. auto.
Qed.

Lemma StronglySorted_firstn (k : nat) (l : list A) :
  StronglySorted R l -> StronglySorted R (firstn k l).
Proof.
  intros H. revert k. induction H as [|a l Hs IH Ha]; intros [|k]; simpl;
    try constructor; [apply IH|].
  rewrite Forall_forall in *. intros x Hx.
  apply Ha. rewrite <- (firstn_skipn k l). apply in_or_app. auto.
Qed.

Lemma StronglySorted_snoc (l : list A) (a : A) :
  StronglySorted R l -> Forall (fun x => R x a) l -> StronglySorted R (l ++ [a]).
Proof.
  induction 1 as [|b l Hs IH Hb]; simpl; intros Ha.
  - repeat constructor.
  - inversion Ha; subst. constructor; [auto|].
    apply Forall_app. split; [assumption|]. repeat constructor. assumption.
Qed.

End Sorting.

Lemma StronglySorted_rev (A : Type) (R : A -> A -> Prop) (l : list A) :
  StronglySorted R l -> StronglySorted (fun a b => R b a) (rev l).
Proof.
  induction 1 as [|a l Hs IH Ha]; simpl; [constructor|].
  apply StronglySorted_snoc; [assumption|].
  apply Forall_rev. assumption.
Qed.

Lemma oldest_first_rev_filter_firstn (f : Message -> bool) (k : nat) (l : list Message) :
  newest_first l -> oldest_first (rev (filter f (firstn k l))).
Proof.
  intros H. unfold oldest_first.
  apply (StronglySorted_rev _ (fun a b => msg_id b < msg_id a)).
  apply StronglySorted_filter, StronglySorted_firstn, H.
Qed.

Lemma oldest_first_rev_firstn_filter (f : Message -> bool) (k : nat) (l : list Message) :
  newest_first l -> oldest_first (rev (firstn k (filter f l))).
Proof.
  intros H. unfold oldest_first.
  apply (StronglySorted_rev _ (fun a b => msg_id b < msg_id a)).
  apply StronglySorted_firstn, StronglySorted_filter, H.
Qed.

Lemma filter_firstn_length {A} (f : A -> bool) (k : nat) (l : list A) :
  (length (filter f (firstn k l)) <= Nat.min k (length (filter f l)))%nat.
Proof.
  apply Nat.min_glb.
  - etransitivity; [apply filter_length_le|apply firstn_le_length].
  - rewrite <- (firstn_skipn k l) at 2. rewrite filter_app, length_app. lia.
Qed.

Lemma stream_prepend (l : list Message) : stream l = prepend l Exhausted.
Proof. induction l; simpl; congruence. Qed.

Lemma take_stream (k : nat) (l : list Message) :
  take k (stream l) = stream (firstn k l).
Proof.
  revert l. induction k as [|k IH]; intros [|msg l]; simpl; try reflexivity.
  rewrite IH. reflexivity.
Qed.

Lemma collect_stream (l messages : list Message) :
  collect (stream l) messages = Ok (messages ++ filter keeps l).
Proof.
  revert messages. induction l as [|msg l IH]; intros messages; simpl.
  - rewrite app_nil_r. reflexivity.
  - destruct (keeps msg); rewrite IH; [rewrite <- app_assoc|]; reflexivity.
Qed.

Lemma fetch_unfiltered_stream (l : list Message) (history_count : Z) :
  _fetch_messages (stream l) history_count None
  = Ok (rev (filter keeps (firstn (Z.to_nat history_count) l))).
Proof.
  unfold _fetch_messages, history.
  rewrite take_stream, collect_stream. reflexivity.
Qed.

(** C1, as the code has it: an unfiltered fetch takes the [history_count]
    most recent raw messages and keeps the non-bot non-command ones among
    them; the result therefore has at most [min(history_count, available)]
    messages (not always that many) and is ordered oldest-first. *)
Theorem fetch_unfiltered_window (l : list Message) (history_count : Z) :
  exists r,
    _fetch_messages (stream l) history_count None = Ok r
    /\ r = rev (filter keeps (firstn (Z.to_nat history_count) l))
    /\ (length r <= Nat.min (Z.to_nat history_count) (length (filter keeps l)))%nat
    /\ (newest_first l -> oldest_first r).
Proof.
  eexists. split; [apply fetch_unfiltered_stream|].
  split; [reflexivity|]. split.
  - rewrite length_rev. apply filter_firstn_length.
  - apply oldest_first_rev_filter_firstn.
Qed.

Lemma fetch_unfiltered_window_witness :
  newest_first short_log
  /\ exists r,
       _fetch_messages (stream short_log) 2 None = Ok r
       /\ r = [Sample.text_message 2 Sample.alice "second"]
       /\ oldest_first r.
Proof.
  assert (H : newest_first short_log) by sorted_by_ids.
  split; [exact H|].
  destruct (fetch_unfiltered_window short_log 2) as (r & E & Er & _ & Hs).
  exists r. split; [exact E|]. split; [|exact (Hs H)].
  rewrite Er. vm_compute. reflexivity.
Defined.

(** C1 as stated fails: with [history_count = 1] the fetch reads the single
    newest message, a bot reply, and returns nothing, although one
    qualifying message is available. *)
Lemma fetch_unfiltered_length_counterexample :
  let l := [ Sample.text_message 2 Sample.helper_bot "beep";
             Sample.text_message 1 Sample.alice "hello" ] in
  _fetch_messages (stream l) 1 None = Ok []
  /\ Z.of_nat (length (filter keeps l)) = 1
  /\ ~ (exists r, _fetch_messages (stream l) 1 None = Ok r
                  /\ Z.of_nat (length r)
                     = Z.min 1 (Z.of_nat (length (filter keeps l)))).
Proof.
  intros l. split; [|split].
  - vm_compute. reflexivity.
  - vm_compute. reflexivity.
  - intros (r & E & H). vm_compute in E. injection E as <-.
    vm_compute in H. discriminate.
Qed.

Lemma scan_for_nonpositive (target_user : User) (history_count : Z)
    (l : list Message) (h : History) (messages : list Message) :
  history_count <= 0 ->
  scan_for target_user history_count (prepend l h) messages
  = scan_for target_user history_count h
      (messages ++ filter (keeps_from target_user) l).
Proof.
  intros Hn. revert messages.
  induction l as [|msg l IH]; intros messages; simpl.
  - rewrite app_nil_r. reflexivity.
  - destruct (keeps_from target_user msg); [|apply IH].
    replace (Z.of_nat (length (messages ++ [msg])) =? history_count) with false.
    + rewrite IH, <- app_assoc. reflexivity.
    + symmetry. apply Z.eqb_neq. rewrite length_app. simpl. lia.
Qed.

Lemma scan_for_positive (target_user : User) (history_count : Z)
    (l : list Message) (h : History) (messages : list Message) :
  Z.of_nat (length messages) < history_count ->
  let wanted := (Z.to_nat history_count - length messages)%nat in
  let found := filter (keeps_from target_user) l in
  scan_for target_user history_count (prepend l h) messages
  = if (wanted <=? length found)%nat
    then Ok (messages ++ firstn wanted found)
    else scan_for target_user history_count h (messages ++ found).
Proof.
  revert messages.
  induction l as [|msg l IH]; intros messages Hlen; simpl.
  - destruct (Nat.leb_spec (Z.to_nat history_count - length messages) 0) as [H|H];
      [lia|]. rewrite app_nil_r. reflexivity.
  - destruct (keeps_from target_user msg); [|apply IH; assumption].
    destruct (Z.eqb_spec (Z.of_nat (length (messages ++ [msg]))) history_count)
      as [E|E]; rewrite length_app in E; simpl in E.
    + replace (Z.to_nat history_count - length messages)%nat with 1%nat by lia.
      reflexivity.
    + assert (Hlen' : Z.of_nat (length (messages ++ [msg])) < history_count)
        by (rewrite length_app; simpl; lia).
      rewrite (IH _ Hlen'). rewrite length_app. simpl.
      replace (Z.to_nat history_count - length messages)%nat
        with (S (Z.to_nat history_count - (length messages + 1)))%nat by lia.
      simpl. rewrite <- !app_assoc. reflexivity.
Qed.

Lemma fetch_filtered_stream (target_user : User) (history_count : Z)
    (l : list Message) :
  1 <= history_count ->
  _fetch_messages (stream l) history_count (Some target_user)
  = Ok (rev (firstn (Z.to_nat history_count) (filter (keeps_from target_user) l))).
Proof.
  intros Hn. unfold _fetch_messages, history.
  rewrite stream_prepend, scan_for_positive by (simpl; lia).
  simpl. rewrite Nat.sub_0_r.
  destruct (Nat.leb_spec (Z.to_nat history_count)
              (length (filter (keeps_from target_user) l))) as [H|H].
  - reflexivity.
  - rewrite firstn_all2 by lia. reflexivity.
Qed.

Lemma fetch_filtered_early_stop (target_user : User) (history_count : Z)
    (l : list Message) (h : History) :
  1 <= history_count ->
  (Z.to_nat history_count <= length (filter (keeps_from target_user) l))%nat ->
  _fetch_messages (prepend l h) history_count (Some target_user)
  = Ok (rev (firstn (Z.to_nat history_count) (filter (keeps_from target_user) l))).
Proof.
  intros Hn Hc. unfold _fetch_messages, history.
  rewrite scan_for_positive by (simpl; lia).
  simpl. rewrite Nat.sub_0_r.
  destruct (Nat.leb_spec (Z.to_nat history_count)
              (length (filter (keeps_from target_user) l))) as [H|H]; [reflexivity|lia].
Qed.

Lemma keeps_from_true (target_user : User) (msg : Message) :
  keeps_from target_user msg = true ->
  user_id (author msg) = user_id target_user
  /\ bot (author msg) = false
  /\ startswith (content msg) (lit "!sum") = false.
Proof.
  unfold keeps_from. intros H.
  apply andb_prop in H as [H H3]. apply andb_prop in H as [H1 H2].
  apply Z.eqb_eq in H1. apply negb_true_iff in H2, H3. auto.
Qed.

(** C10: [history_count] is not validated as positive (the parser returns
    any integer the first token denotes), and for a user-filtered fetch
    with [history_count <= 0] the stop test never succeeds: the scan reads
    the whole history (a failure anywhere in it is reached) and the result
    holds all qualifying messages of the target user. *)
Theorem fetch_filtered_nonpositive_count (target_user : User)
    (history_count : Z) (l : list Message) :
  history_count <= 0 ->
  _fetch_messages (stream l) history_count (Some target_user)
    = Ok (rev (filter (keeps_from target_user) l))
  /\ (forall e, _fetch_messages (prepend l (Fault e)) history_count (Some target_user)
                = Raise e)
  /\ (forall ctx prompt tok rest w,
        first_token prompt tok rest -> int tok = Some history_count ->
        exists target w',
          _parse_args ctx prompt w = (Ok (history_count, target), w')).
Proof.
  intros Hn. split; [|split].
  - unfold _fetch_messages, history.
    rewrite stream_prepend, scan_for_nonpositive by assumption. reflexivity.
  - intros e. unfold _fetch_messages, history.
    rewrite scan_for_nonpositive by assumption. reflexivity.
  - intros ctx prompt tok rest w F Hk. eexists _, _.
    apply (parse_args_numeric _ _ _ _ _ _ F Hk).
Qed.

Lemma fetch_filtered_nonpositive_count_witness :
  _fetch_messages (stream busy_log) (-1) (Some Sample.alice)
    = Ok [ Sample.text_message 1 Sample.alice "one";
           Sample.text_message 3 Sample.alice "two";
           Sample.text_message 5 Sample.alice "three" ]
  /\ _fetch_messages (prepend busy_log (Fault (Exception (lit "HTTP 500"))))
       (-1) (Some Sample.alice) = Raise (Exception (lit "HTTP 500"))
  /\ exists target w',
       _parse_args (Sample.invocation [Sample.alice] (stream busy_log))
         (lit "-1 @alice") quiet = (Ok (-1, target), w').
Proof.
  destruct (fetch_filtered_nonpositive_count Sample.alice (-1) busy_log ltac:(lia))
    as (E & Hfault & Hparse).
  split; [|split].
  - rewrite E. vm_compute. reflexivity.
  - apply Hfault.
  - apply (Hparse _ (lit "-1 @alice") (lit "-1") (lit " @alice")).
    + exists []. by_computation.
    + vm_compute. reflexivity.
Defined.

(** * The transcript formatter *)

Lemma format_loop_step (msg : Message) (rest : list Message)
    (chat_history_lines attachments : list str) :
  format_loop (msg :: rest) chat_history_lines attachments
  = format_loop rest
      (chat_history_lines
         ++ [name (author msg) ++ lit ": " ++ fst (content_text msg)])
      (attachments ++ snd (content_text msg)).
Proof.
  cbn [format_loop]. destruct (content_text msg). reflexivity.
Qed.

(** C2, as the code has it: the embed branch is taken exactly when the
    message has one or more embeds, whether or not any of them has a
    description (only the non-empty descriptions are joined and appended to
    [attachments]); otherwise, with one or more attachments, the attachment
    branch is taken; otherwise the line content is the raw message text.
    The line and the attachments list of the loop are built from that. *)
Theorem content_text_branches (msg : Message) :
  (embeds msg <> [] ->
     content_text msg
     = (lit "嵌入內容: " ++ join (lit ", ") (embed_descriptions (embeds msg)),
        embed_descriptions (embeds msg)))
  /\ (embeds msg = [] -> attachments msg <> [] ->
     content_text msg
     = (lit "附件: " ++ join (lit ", ") (map url (attachments msg)),
        map url (attachments msg)))
  /\ (embeds msg = [] -> attachments msg = [] ->
     content_text msg = (content msg, []))
  /\ (forall rest chat_history_lines found,
     format_loop (msg :: rest) chat_history_lines found
     = format_loop rest
         (chat_history_lines
            ++ [name (author msg) ++ lit ": " ++ fst (content_text msg)])
         (found ++ snd (content_text msg))).
Proof.
  unfold content_text. repeat split.
  - destruct (embeds msg); [contradiction|reflexivity].
  - intros -> H. destruct (attachments msg); [contradiction|reflexivity].
  - intros -> ->. reflexivity.
  - intros. apply format_loop_step.
Qed.

Lemma content_text_branches_witness :
  content_text preview_without_text = (lit "嵌入內容: ", [])
  /\ content_text picture_message
     = (lit "附件: http://x/y.png, http://x/z.png",
        [lit "http://x/y.png"; lit "http://x/z.png"])
  /\ content_text plain_message = (lit "hi", []).
Proof.
  split; [|split].
  - rewrite (proj1 (content_text_branches preview_without_text)).
    + vm_compute. reflexivity.
    + discriminate.
  - rewrite (proj1 (proj2 (content_text_branches picture_message))).
    + vm_compute. reflexivity.
    + reflexivity.
    + discriminate.
  - rewrite (proj1 (proj2 (proj2 (content_text_branches plain_message))));
      reflexivity.
Defined.

(** C2 as stated fails: a message whose only embed has no description and
    which carries an attachment is formatted by the embed branch, not by
    the attachment branch. *)
Lemma content_text_counterexample :
  embed_descriptions (embeds preview_without_text) = []
  /\ attachments preview_without_text <> []
  /\ content_text preview_without_text = (lit "嵌入內容: ", [])
  /\ spec_content_text preview_without_text
     = (lit "附件: http://x/y.png", [lit "http://x/y.png"])
  /\ content_text preview_without_text <> spec_content_text preview_without_text.
Proof.
  split; [|split; [|split; [|split]]].
  - reflexivity.
  - discriminate.
  - vm_compute. reflexivity.
  - vm_compute. reflexivity.
  - vm_compute. discriminate.
Qed.

(** C9: a message whose single embed has the description ["desc1"] gives
    the line ["<author>: 嵌入內容: desc1"] and appends ["desc1"] to the
    attachments list; a message with the attachment URL ["http://x/y.png"]
    and no embeds gives the line ["<author>: 附件: http://x/y.png"] and
    appends that URL. *)
Theorem format_messages_examples (msg : Message)
    (chat_history_lines found : list str) :
  (embeds msg = [{| description := Some (lit "desc1") |}] ->
     format_loop [msg] chat_history_lines found
     = (chat_history_lines ++ [name (author msg) ++ lit ": 嵌入內容: desc1"],
        found ++ [lit "desc1"])
     /\ _format_messages [msg]
        = (name (author msg) ++ lit ": 嵌入內容: desc1", [lit "desc1"]))
  /\ (embeds msg = [] -> attachments msg = [{| url := lit "http://x/y.png" |}] ->
     format_loop [msg] chat_history_lines found
     = (chat_history_lines ++ [name (author msg) ++ lit ": 附件: http://x/y.png"],
        found ++ [lit "http://x/y.png"])
     /\ _format_messages [msg]
        = (name (author msg) ++ lit ": 附件: http://x/y.png",
           [lit "http://x/y.png"])).
Proof.
  destruct msg as [id [uid uname ubot] text es atts ms]. cbn [embeds attachments author name].
  split.
  - intros ->. split; vm_compute; reflexivity.
  - intros -> ->. split; vm_compute; reflexivity.
Qed.

Lemma format_messages_examples_witness :
  _format_messages [embed_message] = (lit "alice: 嵌入內容: desc1", [lit "desc1"])
  /\ format_loop [single_picture_message] [lit "alice: hello"] [lit "desc1"]
     = ([lit "alice: hello"; lit "bob: 附件: http://x/y.png"],
        [lit "desc1"; lit "http://x/y.png"]).
Proof.
  split.
  - rewrite (proj2 (proj1 (format_messages_examples embed_message [] []) eq_refl)).
    vm_compute. reflexivity.
  - rewrite (proj1 (proj2 (format_messages_examples single_picture_message
                             [lit "alice: hello"] [lit "desc1"]) eq_refl eq_refl)).
    vm_compute. reflexivity.
Defined.

(** * The command handler *)

(** The handler after the parser has run. *)
Lemma sum_after_parse (self : Cog) (ctx : Context) (prompt : str) (w w1 : World)
    (history_count : Z) (target_user : option User) :
  _parse_args ctx prompt w = (Ok (history_count, target_user), w1) ->
  sum self ctx prompt w =
    match _fetch_messages (channel ctx) history_count target_user with
    | Raise e => send ctx (error_reply e) w1
    | Ok [] =>
        try_except (send ctx (no_messages_reply target_user)) (on_error ctx) w1
    | Ok (msg :: rest) =>
        try_except
          (summary <- _call_llm self
                        (_create_summary_prompt history_count
                           (fst (_format_messages (msg :: rest))))
                        (snd (_format_messages (msg :: rest))) ;;
           send ctx summary)
          (on_error ctx) w1
    end.
Proof.
  intros Hp. unfold sum, on_error, error_reply, no_messages_reply.
  unfold try_except at 1. unfold bind at 1. rewrite Hp.
  unfold bind at 1. unfold lift.
  destruct (_fetch_messages (channel ctx) history_count target_user) as [[|msg rest]|e].
  - unfold try_except. destruct target_user; reflexivity.
  - unfold try_except. destruct (_format_messages (msg :: rest)). reflexivity.
  - reflexivity.
Qed.

Lemma send_delivered (ctx : Context) (text : str) (w : World) :
  send_fault ctx text = None -> send ctx text w = (Ok tt, delivering text w).
Proof. intros H. unfold send. rewrite H. reflexivity. Qed.

Lemma parse_args_effects (ctx : Context) (prompt : str) (w w1 : World)
    (r : Result (Z * option User)) :
  _parse_args ctx prompt w = (r, w1) ->
  sent w1 = sent w /\ llm_calls w1 = llm_calls w.
Proof.
  intros H. destruct (parse_args_total ctx prompt w) as (k & t & w' & E & Hs & Hl).
  rewrite E in H. injection H as _ <-. auto.
Qed.

Lemma call_llm_run (self : Cog) (prompt : str) (attachments : list str) (w : World) :
  _call_llm self prompt attachments w
  = (match get_oai_reply (llm_services self) prompt attachments with
     | Ok response =>
         match choices response with
         | reply :: _ => Ok reply
         | [] => Raise IndexError
         end
     | Raise e => Raise e
     end, requesting prompt attachments w).
Proof.
  unfold _call_llm, requesting.
  destruct (get_oai_reply (llm_services self) prompt attachments) as [response|e];
    [destruct (choices response)|]; reflexivity.
Qed.

Lemma call_llm_effects (self : Cog) (prompt : str) (attachments : list str)
    (w w2 : World) (r : Result str) :
  _call_llm self prompt attachments w = (r, w2) ->
  sent w2 = sent w /\ never_awaited w2 = never_awaited w
  /\ llm_calls w2 = llm_calls w ++ [(prompt, attachments)].
Proof.
  unfold _call_llm. intros H.
  destruct (get_oai_reply (llm_services self) prompt attachments) as [response|e];
    [destruct (choices response)|]; injection H as _ <-; auto.
Qed.

(** C7: formatting no messages gives the empty transcript and no
    attachments; and when the fetch returns no messages, the handler sends
    exactly one reply, the one for the target user when there is one and the
    general one otherwise, and returns without calling the LLM client. *)
Theorem sum_without_messages :
  _format_messages [] = ([], [])
  /\ forall (self : Cog) (ctx : Context) (prompt : str) (w w1 : World)
        (history_count : Z) (target_user : option User),
      _parse_args ctx prompt w = (Ok (history_count, target_user), w1) ->
      _fetch_messages (channel ctx) history_count target_user = Ok [] ->
      send_fault ctx (no_messages_reply target_user) = None ->
      exists w',
        sum self ctx prompt w = (Ok tt, w')
        /\ sent w' = sent w ++ [no_messages_reply target_user]
        /\ llm_calls w' = llm_calls w.
Proof.
  split; [reflexivity|].
  intros self ctx prompt w w1 history_count target_user Hp Hf Hs.
  rewrite (sum_after_parse _ _ _ _ _ _ _ Hp), Hf.
  unfold try_except. rewrite (send_delivered _ _ _ Hs).
  destruct (parse_args_effects _ _ _ _ _ Hp) as [E1 E2].
  eexists. split; [reflexivity|]. simpl. rewrite E1, E2. auto.
Qed.

Lemma sum_without_messages_witness :
  (exists w',
     sum (Sample.answering "unused")
       (Sample.invocation [Sample.alice] (stream [plain_message]))
       (lit "5 @alice") quiet = (Ok tt, w')
     /\ sent w' = [lit "在此頻道中找不到 <@1> 的相關訊息。"]
     /\ llm_calls w' = [])
  /\ (exists w',
     sum (Sample.answering "unused") (Sample.invocation [] Exhausted)
       [] quiet = (Ok tt, w')
     /\ sent w' = [lit "此頻道沒有可供總結的訊息。"]
     /\ llm_calls w' = []).
Proof.
  split.
  - destruct (proj2 sum_without_messages (Sample.answering "unused")
                (Sample.invocation [Sample.alice] (stream [plain_message]))
                (lit "5 @alice") quiet quiet 5 (Some Sample.alice))
      as (w' & E & Hs & Hl); try (vm_compute; reflexivity).
    exists w'. split; [exact E|]. split; [|exact Hl].
    rewrite Hs. vm_compute. reflexivity.
  - destruct (proj2 sum_without_messages (Sample.answering "unused")
                (Sample.invocation [] Exhausted) [] quiet quiet 20 None)
      as (w' & E & Hs & Hl); try (vm_compute; reflexivity).
    exists w'. split; [exact E|]. split; [|exact Hl].
    rewrite Hs. vm_compute. reflexivity.
Defined.

(** C8, as the code has it: an exception raised by a pipeline stage (the
    history fetch or the LLM call; the parser, the formatter and the prompt
    builder raise nothing) is caught and answered by sending one reply, the
    error line with the description of the exception; when that line is
    delivered, it is the only reply and the handler returns normally.  When
    every stage succeeds and the summary is delivered, the summary text of
    the LLM is the only reply and the handler returns normally. *)
Theorem sum_catches_stage_failures (self : Cog) (ctx : Context) (prompt : str)
    (w : World) :
  exists history_count target_user w1,
    _parse_args ctx prompt w = (Ok (history_count, target_user), w1)
    /\ (forall e,
          _fetch_messages (channel ctx) history_count target_user = Raise e ->
          send_fault ctx (error_reply e) = None ->
          exists w',
            sum self ctx prompt w = (Ok tt, w')
            /\ sent w' = sent w ++ [error_reply e])
    /\ (forall msg rest,
          _fetch_messages (channel ctx) history_count target_user
            = Ok (msg :: rest) ->
          let final_prompt :=
            _create_summary_prompt history_count
              (fst (_format_messages (msg :: rest))) in
          let attachments := snd (_format_messages (msg :: rest)) in
          (forall e w2,
             _call_llm self final_prompt attachments w1 = (Raise e, w2) ->
             send_fault ctx (error_reply e) = None ->
             exists w',
               sum self ctx prompt w = (Ok tt, w')
               /\ sent w' = sent w ++ [error_reply e])
          /\ (forall summary w2,
             _call_llm self final_prompt attachments w1 = (Ok summary, w2) ->
             send_fault ctx summary = None ->
             exists w',
               sum self ctx prompt w = (Ok tt, w')
               /\ sent w' = sent w ++ [summary])).
Proof.
  destruct (parse_args_total ctx prompt w) as (k & target & w1 & Hp & Hs & _).
  exists k, target, w1. split; [exact Hp|]. split.
  - intros e Hf Hd. rewrite (sum_after_parse _ _ _ _ _ _ _ Hp), Hf.
    rewrite (send_delivered _ _ _ Hd).
    eexists. split; [reflexivity|]. simpl. congruence.
  - intros msg rest Hf final_prompt attachments. split.
    + intros e w2 Hc Hd. rewrite (sum_after_parse _ _ _ _ _ _ _ Hp), Hf.
      destruct (call_llm_effects _ _ _ _ _ _ Hc) as (Hs2 & _ & _).
      unfold try_except, bind. fold final_prompt attachments. rewrite Hc.
      unfold on_error. rewrite (send_delivered _ _ _ Hd).
      eexists. split; [reflexivity|]. simpl. congruence.
    + intros summary w2 Hc Hd. rewrite (sum_after_parse _ _ _ _ _ _ _ Hp), Hf.
      destruct (call_llm_effects _ _ _ _ _ _ Hc) as (Hs2 & _ & _).
      unfold try_except, bind. fold final_prompt attachments. rewrite Hc.
      rewrite (send_delivered _ _ _ Hd).
      eexists. split; [reflexivity|]. simpl. congruence.
Qed.

Lemma sum_catches_stage_failures_witness :
  (exists w',
     sum (Sample.answering "S")
       (Sample.invocation [] (Fault (Exception (lit "Forbidden"))))
       (lit "3") quiet = (Ok tt, w')
     /\ sent w' = [lit "發生錯誤：Forbidden"])
  /\ (exists w',
     sum (Sample.failing "quota") (Sample.invocation [] (stream short_log))
       (lit "3") quiet = (Ok tt, w')
     /\ sent w' = [lit "發生錯誤：quota"])
  /\ (exists w',
     sum (Sample.answering "S") (Sample.invocation [] (stream short_log))
       (lit "3") quiet = (Ok tt, w')
     /\ sent w' = [lit "S"]).
Proof.
  split; [|split].
  - destruct (sum_catches_stage_failures (Sample.answering "S")
                (Sample.invocation [] (Fault (Exception (lit "Forbidden"))))
                (lit "3") quiet)
      as (k & t & w1 & Hp & Hfetch & _).
    vm_compute in Hp. injection Hp as Hk Ht Hw. subst k t w1.
    destruct (Hfetch (Exception (lit "Forbidden"))
                ltac:(vm_compute; reflexivity) eq_refl) as (w' & E & Hs).
    exists w'. split; [exact E|]. rewrite Hs. vm_compute. reflexivity.
  - destruct (sum_catches_stage_failures (Sample.failing "quota")
                (Sample.invocation [] (stream short_log)) (lit "3") quiet)
      as (k & t & w1 & Hp & _ & Hllm).
    vm_compute in Hp. injection Hp as Hk Ht Hw. subst k t w1.
    destruct (Hllm (Sample.text_message 1 Sample.bob "first")
                [Sample.text_message 2 Sample.alice "second"]
                ltac:(vm_compute; reflexivity)) as [Hfail _].
    destruct (Hfail (Exception (lit "quota")) _
                ltac:(rewrite call_llm_run; reflexivity) eq_refl)
      as (w' & E & Hs).
    exists w'. split; [exact E|]. rewrite Hs. vm_compute. reflexivity.
  - destruct (sum_catches_stage_failures (Sample.answering "S")
                (Sample.invocation [] (stream short_log)) (lit "3") quiet)
      as (k & t & w1 & Hp & _ & Hllm).
    vm_compute in Hp. injection Hp as Hk Ht Hw. subst k t w1.
    destruct (Hllm (Sample.text_message 1 Sample.bob "first")
                [Sample.text_message 2 Sample.alice "second"]
                ltac:(vm_compute; reflexivity)) as [_ Hok].
    destruct (Hok (lit "S") _
                ltac:(rewrite call_llm_run; reflexivity) eq_refl)
      as (w' & E & Hs).
    exists w'. split; [exact E|]. rewrite Hs. vm_compute. reflexivity.
Defined.

(** C8 as stated fails when a reply cannot be delivered: on a platform that
    refuses every text, a failure of the fetch leaves the handler as the
    exception of the refused error line, with no reply; and on a platform
    that refuses long texts, a successful run whose summary has 2001
    characters is answered by the error line, not by the summary. *)
Lemma sum_undelivered_reply_counterexample :
  _fetch_messages (Fault (Exception (lit "HTTP 500"))) 3 None
    = Raise (Exception (lit "HTTP 500"))
  /\ sum (Sample.answering "S")
       (muted_invocation [] (Fault (Exception (lit "HTTP 500"))))
       (lit "3") quiet
     = (Raise (Exception (lit "403 Forbidden")), quiet)
  /\ fst (_call_llm verbose
            (fst (request_for 3 [Sample.text_message 1 Sample.bob "first";
                                 Sample.text_message 2 Sample.alice "second"]))
            [] quiet)
     = Ok (repeat 97%N 2001)
  /\ sum verbose (strict_invocation [] (stream short_log)) (lit "3") quiet
     = (Ok tt,
        {| sent := [lit "發生錯誤：400 Bad Request"];
           never_awaited := [];
           llm_calls :=
             [request_for 3 [Sample.text_message 1 Sample.bob "first";
                             Sample.text_message 2 Sample.alice "second"]] |}).
Proof.
  split; [|split; [|split]]; vm_compute; reflexivity.
Qed.

(** * Further properties of the formatter *)

Lemma format_loop_map (messages : list Message)
    (chat_history_lines found : list str) :
  format_loop messages chat_history_lines found
  = (chat_history_lines ++ map line_of messages,
     found ++ flat_map references_of messages).
Proof.
  revert chat_history_lines found.
  induction messages as [|msg rest IH]; intros chat_history_lines found.
  - simpl. rewrite !app_nil_r. reflexivity.
  - rewrite format_loop_step, IH. cbn [map flat_map].
    unfold line_of, references_of. rewrite <- !app_assoc. reflexivity.
Qed.

(** X1: the transcript is the newline-join of one line per message, in the
    order of the input, and the attachments list holds the references of the
    messages in message order, each message's references in their own
    order. *)
Theorem format_messages_map (messages : list Message) :
  _format_messages messages
  = (join newline (map line_of messages), flat_map references_of messages).
Proof.
  unfold _format_messages. rewrite format_loop_map. reflexivity.
Qed.

Lemma join_app (sep : str) (xs ys : list str) :
  xs <> [] -> ys <> [] ->
  join sep (xs ++ ys) = join sep xs ++ sep ++ join sep ys.
Proof.
  intros Hx Hy. induction xs as [|x xs IH]; [contradiction|].
  destruct xs as [|x' xs].
  - simpl. destruct ys; [contradiction|reflexivity].
  - change ((x :: x' :: xs) ++ ys) with (x :: (x' :: xs) ++ ys).
    change (join sep (x :: (x' :: xs) ++ ys))
      with (x ++ sep ++ join sep ((x' :: xs) ++ ys)).
    rewrite IH by discriminate.
    change (join sep (x :: x' :: xs)) with (x ++ sep ++ join sep (x' :: xs)).
    rewrite <- !app_assoc. reflexivity.
Qed.

(** X2: formatting two batches of messages one after the other is the same
    as formatting each batch: the transcripts are joined by one newline and
    the attachments lists are concatenated. *)
Theorem format_messages_app (older newer : list Message) :
  older <> [] -> newer <> [] ->
  _format_messages (older ++ newer)
  = (fst (_format_messages older) ++ newline ++ fst (_format_messages newer),
     snd (_format_messages older) ++ snd (_format_messages newer)).
Proof.
  intros Ho Hn. unfold _format_messages. rewrite !format_loop_map. cbn [fst snd app].
  rewrite map_app, flat_map_app, join_app; [reflexivity| |].
  - destruct older; [contradiction|discriminate].
  - destruct newer; [contradiction|discriminate].
Qed.

Lemma format_messages_app_witness :
  _format_messages ([embed_message] ++ [single_picture_message])
  = (lit "alice: 嵌入內容: desc1" ++ newline ++ lit "bob: 附件: http://x/y.png",
     [lit "desc1"; lit "http://x/y.png"]).
Proof.
  rewrite (format_messages_app [embed_message] [single_picture_message]);
    [|discriminate|discriminate].
  vm_compute. reflexivity.
Defined.

(** * Further properties of the fetcher *)

Lemma history_shape (h : History) :
  exists l, h = stream l \/ exists e, h = prepend l (Fault e).
Proof.
  induction h as [|msg rest [l [E | [e E]]]|e].
  - exists []. left. reflexivity.
  - exists (msg :: l). left. simpl. rewrite E. reflexivity.
  - exists (msg :: l). right. exists e. simpl. rewrite E. reflexivity.
  - exists []. right. exists e. reflexivity.
Qed.

Lemma take_prepend_within (k : nat) (l : list Message) (h : History) :
  (k <= length l)%nat -> take k (prepend l h) = stream (firstn k l).
Proof.
  revert l. induction k as [|k IH]; intros l Hk; [reflexivity|].
  destruct l as [|msg l]; simpl in *; [lia|].
  rewrite IH by lia. reflexivity.
Qed.

Lemma take_prepend_fault (k : nat) (l : list Message) (e : Exn) :
  (length l < k)%nat -> take k (prepend l (Fault e)) = prepend l (Fault e).
Proof.
  revert l. induction k as [|k IH]; intros l Hk; [lia|].
  destruct l as [|msg l]; simpl in *; [reflexivity|].
  rewrite IH by lia. reflexivity.
Qed.

Lemma collect_prepend (l : list Message) (h : History) (messages : list Message) :
  collect (prepend l h) messages = collect h (messages ++ filter keeps l).
Proof.
  revert messages. induction l as [|msg l IH]; intros messages; simpl.
  - rewrite app_nil_r. reflexivity.
  - destruct (keeps msg); rewrite IH; [rewrite <- app_assoc|]; reflexivity.
Qed.

Lemma fetch_unfiltered_within (l : list Message) (h : History) (history_count : Z) :
  (Z.to_nat history_count <= length l)%nat ->
  _fetch_messages (prepend l h) history_count None
  = Ok (rev (filter keeps (firstn (Z.to_nat history_count) l))).
Proof.
  intros Hk. unfold _fetch_messages, history.
  rewrite take_prepend_within, collect_stream by assumption. reflexivity.
Qed.

Lemma fetch_unfiltered_fault_inside (l : list Message) (e : Exn) (history_count : Z) :
  (length l < Z.to_nat history_count)%nat ->
  _fetch_messages (prepend l (Fault e)) history_count None = Raise e.
Proof.
  intros Hk. unfold _fetch_messages, history.
  rewrite take_prepend_fault, collect_prepend by assumption. reflexivity.
Qed.

(** X3: an unfiltered fetch never reads past the [history_count] newest raw
    messages: when the channel holds that many, the result does not depend
    on the rest of the history, even if reading further would fail; a
    failure of the platform inside the window makes the whole fetch raise
    and the messages read so far are lost. *)
Theorem fetch_unfiltered_faults (l : list Message) (history_count : Z) :
  (forall h, (Z.to_nat history_count <= length l)%nat ->
     _fetch_messages (prepend l h) history_count None
     = Ok (rev (filter keeps (firstn (Z.to_nat history_count) l))))
  /\ (forall e, (length l < Z.to_nat history_count)%nat ->
     _fetch_messages (prepend l (Fault e)) history_count None = Raise e).
Proof.
  split.
  - intros h Hk. unfold _fetch_messages, history.
    rewrite take_prepend_within, collect_stream by assumption. reflexivity.
  - intros e Hk. unfold _fetch_messages, history.
    rewrite take_prepend_fault, collect_prepend by assumption. reflexivity.
Qed.

Lemma fetch_unfiltered_faults_witness :
  _fetch_messages (prepend short_log (Fault (Exception (lit "HTTP 500")))) 3 None
  = Ok [ Sample.text_message 1 Sample.bob "first";
         Sample.text_message 2 Sample.alice "second" ]
  /\ _fetch_messages (prepend short_log (Fault (Exception (lit "HTTP 500")))) 4 None
     = Raise (Exception (lit "HTTP 500")).
Proof.
  split.
  - rewrite (proj1 (fetch_unfiltered_faults short_log 3)).
    + vm_compute. reflexivity.
    + vm_compute. repeat constructor.
  - apply (proj2 (fetch_unfiltered_faults short_log 4)).
    vm_compute. repeat constructor.
Defined.

Lemma fetch_filtered_fault_early (target_user : User)
    (history_count : Z) (l : list Message) (e : Exn) :
  1 <= history_count ->
  (length (filter (keeps_from target_user) l) < Z.to_nat history_count)%nat ->
  _fetch_messages (prepend l (Fault e)) history_count (Some target_user) = Raise e.
Proof.
  intros Hn Hc. unfold _fetch_messages, history.
  rewrite scan_for_positive by (simpl; lia).
  simpl. rewrite Nat.sub_0_r.
  destruct (Nat.leb_spec (Z.to_nat history_count)
              (length (filter (keeps_from target_user) l))) as [H|H];
    [lia|reflexivity].
Qed.

(** X4: a user-filtered fetch with [history_count >= 1] raises when the
    platform fails before the [history_count]-th qualifying message of the
    target user was found; the qualifying messages found so far are lost. *)
Theorem fetch_filtered_fault_before_enough (target_user : User)
    (history_count : Z) (l : list Message) (e : Exn) :
  1 <= history_count ->
  (length (filter (keeps_from target_user) l) < Z.to_nat history_count)%nat ->
  _fetch_messages (prepend l (Fault e)) history_count (Some target_user) = Raise e.
Proof.
  intros Hn Hc. unfold _fetch_messages, history.
  rewrite scan_for_positive by (simpl; lia).
  simpl. rewrite Nat.sub_0_r.
  destruct (Nat.leb_spec (Z.to_nat history_count)
              (length (filter (keeps_from target_user) l))) as [H|H];
    [lia|reflexivity].
Qed.

Lemma fetch_filtered_fault_before_enough_witness :
  _fetch_messages (prepend busy_log (Fault (Exception (lit "HTTP 500"))))
    4 (Some Sample.alice) = Raise (Exception (lit "HTTP 500")).
Proof.
  apply fetch_filtered_fault_before_enough; [lia|].
  vm_compute. repeat constructor.
Defined.

Lemma keeps_from_keeps (target_user : User) (msg : Message) :
  keeps_from target_user msg = true ->
  keeps msg = true /\ user_id (author msg) = user_id target_user.
Proof.
  unfold keeps_from, keeps. intros H.
  apply andb_prop in H as [H H3]. apply andb_prop in H as [H1 H2].
  apply Z.eqb_eq in H1. rewrite H2, H3. auto.
Qed.

Lemma Forall_rev_firstn_filter {A} (f : A -> bool) (k : nat) (l : list A) :
  Forall (fun x => f x = true) (rev (firstn k (filter f l))).
Proof.
  apply Forall_rev. rewrite Forall_forall. intros x Hin.
  assert (Hin' : In x (filter f l)).
  { rewrite <- (firstn_skipn k (filter f l)). apply in_or_app. left. exact Hin. }
  apply filter_In in Hin' as [_ H]. exact H.
Qed.

Lemma Forall_rev_filter {A} (f : A -> bool) (l : list A) :
  Forall (fun x => f x = true) (rev (filter f l)).
Proof.
  apply Forall_rev. rewrite Forall_forall. intros x Hin.
  apply filter_In in Hin as [_ H]. exact H.
Qed.

(** What a successful fetch returns, for every history. *)
Lemma fetch_ok_shape (h : History) (history_count : Z)
    (target_user : option User) (r : list Message) :
  _fetch_messages h history_count target_user = Ok r ->
  match target_user with
  | None => exists l, r = rev (filter keeps (firstn (Z.to_nat history_count) l))
  | Some u =>
      exists l,
        (1 <= history_count
         /\ r = rev (firstn (Z.to_nat history_count) (filter (keeps_from u) l)))
        \/ (history_count <= 0 /\ r = rev (filter (keeps_from u) l))
  end.
Proof.
  intros H. destruct (history_shape h) as [l [-> | [e ->]]];
    destruct target_user as [u|].
  - exists l. destruct (Z.le_gt_cases 1 history_count) as [Hn|Hn].
    + rewrite fetch_filtered_stream in H by assumption.
      injection H as <-. left. auto.
    + unfold _fetch_messages, history in H.
      rewrite stream_prepend, scan_for_nonpositive in H by lia.
      simpl in H. injection H as <-. right. split; [lia|reflexivity].
  - exists l. rewrite fetch_unfiltered_stream in H. injection H as <-. reflexivity.
  - exists l. destruct (Z.le_gt_cases 1 history_count) as [Hn|Hn].
    + destruct (Nat.le_gt_cases (Z.to_nat history_count)
                  (length (filter (keeps_from u) l))) as [Hc|Hc].
      * rewrite fetch_filtered_early_stop in H by assumption.
        injection H as <-. left. auto.
      * rewrite fetch_filtered_fault_early in H by assumption.
        discriminate.
    + unfold _fetch_messages, history in H.
      rewrite scan_for_nonpositive in H by lia. discriminate.
  - exists l. destruct (Nat.le_gt_cases (Z.to_nat history_count) (length l)) as [Hc|Hc].
    + rewrite fetch_unfiltered_within in H by assumption.
      injection H as <-. reflexivity.
    + rewrite fetch_unfiltered_fault_inside in H by assumption.
      discriminate.
Qed.

(** X5: whatever the history does, a fetch that returns has only kept
    messages of non-bot authors whose text does not start with ["!sum"];
    with a target user, only messages whose author has the id of the target;
    without a target user, at most [history_count] messages (none for a
    count below one); and for [history_count >= 1], at most [history_count]
    messages in both modes. *)
Theorem fetch_returns_only_qualifying (h : History) (history_count : Z)
    (target_user : option User) (r : list Message) :
  _fetch_messages h history_count target_user = Ok r ->
  Forall (fun msg => bot (author msg) = false
                     /\ startswith (content msg) (lit "!sum") = false) r
  /\ (forall u, target_user = Some u ->
        Forall (fun msg => user_id (author msg) = user_id u) r)
  /\ (target_user = None -> (length r <= Z.to_nat history_count)%nat)
  /\ (1 <= history_count -> Z.of_nat (length r) <= history_count).
Proof.
  intros H. apply fetch_ok_shape in H.
  assert (Hkeeps : forall msg, keeps msg = true ->
            bot (author msg) = false
            /\ startswith (content msg) (lit "!sum") = false).
  { intros msg Hk. unfold keeps in Hk. apply andb_prop in Hk as [H1 H2].
    apply negb_true_iff in H1, H2. auto. }
  destruct target_user as [u|].
  - destruct H as [l [[Hn ->] | [Hn ->]]].
    + pose proof (Forall_rev_firstn_filter (keeps_from u) (Z.to_nat history_count) l)
        as HF.
      repeat split.
      * eapply Forall_impl; [|exact HF]. intros msg Hm.
        apply Hkeeps, (keeps_from_keeps u), Hm.
      * intros u' E. injection E as <-.
        eapply Forall_impl; [|exact HF]. intros msg Hm.
        apply (keeps_from_keeps u), Hm.
      * discriminate.
      * intros _. rewrite length_rev.
        pose proof (firstn_le_length (Z.to_nat history_count)
                      (filter (keeps_from u) l)). lia.
    + pose proof (Forall_rev_filter (keeps_from u) l) as HF.
      repeat split.
      * eapply Forall_impl; [|exact HF]. intros msg Hm.
        apply Hkeeps, (keeps_from_keeps u), Hm.
      * intros u' E. injection E as <-.
        eapply Forall_impl; [|exact HF]. intros msg Hm.
        apply (keeps_from_keeps u), Hm.
      * discriminate.
      * lia.
  - destruct H as [l ->].
    assert (Hlen : (length (rev (filter keeps (firstn (Z.to_nat history_count) l)))
                    <= Z.to_nat history_count)%nat).
    { rewrite length_rev.
      pose proof (filter_firstn_length keeps (Z.to_nat history_count) l). lia. }
    repeat split.
    + eapply Forall_impl; [|apply Forall_rev_filter]. intros msg Hm.
      apply Hkeeps, Hm.
    + discriminate.
    + intros _. exact Hlen.
    + intros Hn. lia.
Qed.

Lemma fetch_returns_only_qualifying_witness :
  let r := [ Sample.text_message 3 Sample.alice "two";
             Sample.text_message 5 Sample.alice "three" ] in
  _fetch_messages (prepend busy_log (Fault (Exception (lit "HTTP 500"))))
    2 (Some Sample.alice) = Ok r
  /\ Forall (fun msg => user_id (author msg) = user_id Sample.alice) r
  /\ Z.of_nat (length r) <= 2.
Proof.
  intros r.
  assert (E : _fetch_messages (prepend busy_log (Fault (Exception (lit "HTTP 500"))))
                2 (Some Sample.alice) = Ok r) by (vm_compute; reflexivity).
  destruct (fetch_returns_only_qualifying _ _ _ _ E) as (_ & Hu & _ & Hn).
  split; [exact E|]. split; [apply (Hu Sample.alice eq_refl)|apply Hn; lia].
Defined.

(** X6: with a count below one and no target user the fetch asks the
    platform for nothing and returns no messages, whatever the channel
    holds; the handler then answers with the reply for an empty channel and
    makes no request to the LLM client. *)
Theorem sum_with_nonpositive_count (self : Cog) (ctx : Context) (prompt : str)
    (w w1 : World) (history_count : Z) :
  history_count <= 0 ->
  _parse_args ctx prompt w = (Ok (history_count, None), w1) ->
  send_fault ctx (no_messages_reply None) = None ->
  _fetch_messages (channel ctx) history_count None = Ok []
  /\ sum self ctx prompt w = (Ok tt, delivering (no_messages_reply None) w1).
Proof.
  intros Hn Hp Hs.
  assert (Hf : _fetch_messages (channel ctx) history_count None = Ok []).
  { unfold _fetch_messages, history.
    replace (Z.to_nat history_count) with 0%nat by lia. reflexivity. }
  split; [exact Hf|].
  rewrite (sum_after_parse _ _ _ _ _ _ _ Hp), Hf.
  unfold try_except. rewrite (send_delivered _ _ _ Hs). reflexivity.
Qed.

Lemma sum_with_nonpositive_count_witness :
  sum (Sample.answering "unused") (Sample.invocation [] (stream busy_log))
    (lit "0") quiet
  = (Ok tt, {| sent := [lit "此頻道沒有可供總結的訊息。"];
               never_awaited := []; llm_calls := [] |}).
Proof.
  rewrite (proj2 (sum_with_nonpositive_count (Sample.answering "unused")
                    (Sample.invocation [] (stream busy_log)) (lit "0")
                    quiet quiet 0 ltac:(lia) ltac:(vm_compute; reflexivity)
                    eq_refl)).
  vm_compute. reflexivity.
Defined.

(** * Further properties of the handler *)

Lemma send_cases (ctx : Context) (text : str) (w : World) :
  (send_fault ctx text = None /\ send ctx text w = (Ok tt, delivering text w))
  \/ (exists e, send_fault ctx text = Some e /\ send ctx text w = (Raise e, w)).
Proof.
  unfold send. destruct (send_fault ctx text) as [e|].
  - right. exists e. auto.
  - left. auto.
Qed.

Lemma guarded_outcome (ctx : Context) (body : M unit) (w1 wb : World) :
  (exists text, body w1 = (Ok tt, delivering text wb))
  \/ (exists e, body w1 = (Raise e, wb)) ->
  (exists text, try_except body (on_error ctx) w1 = (Ok tt, delivering text wb))
  \/ (exists e e', send_fault ctx (error_reply e) = Some e'
                   /\ try_except body (on_error ctx) w1 = (Raise e', wb)).
Proof.
  unfold try_except. intros [[text ->] | [e ->]].
  - left. eauto.
  - unfold on_error.
    destruct (send_cases ctx (error_reply e) wb) as [[_ ->] | (e' & Hs & ->)].
    + left. eauto.
    + right. eauto.
Qed.

(** Every run of the handler ends in one of two ways: one reply was
    delivered and the handler returned, or the error reply could not be
    delivered and the handler raised without delivering anything. *)
Lemma sum_outcome (self : Cog) (ctx : Context) (prompt : str) (w w1 : World)
    (history_count : Z) (target_user : option User) :
  _parse_args ctx prompt w = (Ok (history_count, target_user), w1) ->
  let wb := before_reply history_count
              (_fetch_messages (channel ctx) history_count target_user) w1 in
  (exists text, sum self ctx prompt w = (Ok tt, delivering text wb))
  \/ (exists e e', send_fault ctx (error_reply e) = Some e'
                   /\ sum self ctx prompt w = (Raise e', wb)).
Proof.
  intros Hp wb. subst wb. rewrite (sum_after_parse _ _ _ _ _ _ _ Hp).
  destruct (_fetch_messages (channel ctx) history_count target_user)
    as [[|msg rest]|e]; cbn [before_reply].
  - apply guarded_outcome.
    destruct (send_cases ctx (no_messages_reply target_user) w1)
      as [[_ ->] | (e & _ & ->)]; eauto.
  - apply guarded_outcome. unfold bind. rewrite call_llm_run.
    unfold request_for. cbn [fst snd].
    destruct (get_oai_reply _ _ _) as [response|e]; [|eauto].
    destruct (choices response) as [|reply others]; [eauto|].
    match goal with
    | |- context [send ctx reply ?w] =>
        destruct (send_cases ctx reply w) as [[_ ->] | (e & _ & ->)]; eauto
    end.
  - destruct (send_cases ctx (error_reply e) w1) as [[_ ->] | (e' & Hs & ->)].
    + left. eauto.
    + right. eauto.
Qed.

Lemma before_reply_sent (history_count : Z) (fetched : Result (list Message))
    (w1 : World) :
  sent (before_reply history_count fetched w1) = sent w1.
Proof. destruct fetched as [[|msg rest]|e]; reflexivity. Qed.

(** X7: one invocation makes at most one request to the LLM client: none
    when the fetch raises or returns no messages, and otherwise exactly the
    request built from the transcript of the fetched messages and from the
    requested [history_count] (not from the number of messages fetched),
    whether or not the replies can be delivered. *)
Theorem sum_llm_requests (self : Cog) (ctx : Context) (prompt : str)
    (w w1 : World) (history_count : Z) (target_user : option User) :
  _parse_args ctx prompt w = (Ok (history_count, target_user), w1) ->
  llm_calls (snd (sum self ctx prompt w))
  = llm_calls w
      ++ match _fetch_messages (channel ctx) history_count target_user with
         | Ok (msg :: rest) => [request_for history_count (msg :: rest)]
         | _ => []
         end.
Proof.
  intros Hp. destruct (parse_args_effects _ _ _ _ _ Hp) as [_ Hl].
  assert (Hb : llm_calls (before_reply history_count
                 (_fetch_messages (channel ctx) history_count target_user) w1)
               = llm_calls w
                   ++ match _fetch_messages (channel ctx) history_count target_user with
                      | Ok (msg :: rest) => [request_for history_count (msg :: rest)]
                      | _ => []
                      end).
  { destruct (_fetch_messages (channel ctx) history_count target_user)
      as [[|msg rest]|e]; cbn [before_reply requesting llm_calls];
      rewrite Hl, ?app_nil_r; reflexivity. }
  destruct (sum_outcome self _ _ _ _ _ _ Hp) as [[text E] | (e & e' & _ & E)];
    rewrite E; exact Hb.
Qed.

Lemma sum_llm_requests_witness :
  llm_calls (snd (sum (Sample.answering "S")
                    (Sample.invocation [] (stream short_log)) (lit "50") quiet))
  = [(_create_summary_prompt 50 (lit "bob: first" ++ newline ++ lit "alice: second"),
      [])].
Proof.
  rewrite (sum_llm_requests (Sample.answering "S")
             (Sample.invocation [] (stream short_log)) (lit "50") quiet quiet 50 None
             ltac:(vm_compute; reflexivity)).
  vm_compute. reflexivity.
Defined.

(** X8: whatever the stages and the platform do, one invocation delivers at
    most one reply to the channel, after the replies that were there. *)
Theorem sum_at_most_one_reply (self : Cog) (ctx : Context) (prompt : str)
    (w : World) :
  exists replies,
    sent (snd (sum self ctx prompt w)) = sent w ++ replies
    /\ (length replies <= 1)%nat.
Proof.
  destruct (parse_args_total ctx prompt w) as (k & target & w1 & Hp & Hs & _).
  destruct (sum_outcome self _ _ _ _ _ _ Hp) as [[text E] | (e & e' & _ & E)];
    rewrite E; cbn [snd delivering sent]; rewrite before_reply_sent, Hs.
  - exists [text]. auto.
  - exists []. rewrite app_nil_r. auto.
Qed.

(** X9: the handler raises only when the error reply itself cannot be
    delivered: the exception that leaves the handler is the one raised by
    sending an error line, and in that case no reply was delivered. *)
Theorem sum_raises_only_from_error_reply (self : Cog) (ctx : Context)
    (prompt : str) (w : World) (e' : Exn) :
  fst (sum self ctx prompt w) = Raise e' ->
  exists e,
    send_fault ctx (error_reply e) = Some e'
    /\ sent (snd (sum self ctx prompt w)) = sent w.
Proof.
  destruct (parse_args_total ctx prompt w) as (k & target & w1 & Hp & Hs & _).
  destruct (sum_outcome self _ _ _ _ _ _ Hp) as [[text E] | (e & e1 & Hf & E)];
    rewrite E; cbn [fst snd]; intros H.
  - discriminate.
  - injection H as ->. exists e. split; [exact Hf|].
    rewrite before_reply_sent. exact Hs.
Qed.

Lemma sum_raises_only_from_error_reply_witness :
  fst (sum (Sample.answering "S") (muted_invocation [] (stream short_log))
         (lit "3") quiet) = Raise (Exception (lit "403 Forbidden"))
  /\ exists e,
       send_fault (muted_invocation [] (stream short_log)) (error_reply e)
       = Some (Exception (lit "403 Forbidden"))
       /\ sent (snd (sum (Sample.answering "S")
                       (muted_invocation [] (stream short_log)) (lit "3") quiet))
          = [].
Proof.
  assert (E : fst (sum (Sample.answering "S") (muted_invocation [] (stream short_log))
                     (lit "3") quiet) = Raise (Exception (lit "403 Forbidden")))
    by (vm_compute; reflexivity).
  split; [exact E|].
  exact (sum_raises_only_from_error_reply _ _ _ _ _ E).
Defined.

(** X10: when the LLM client answers but the summary cannot be delivered,
    the failure of the send is caught like a failure of a stage: the reply
    is the error line describing it, provided that line can be delivered. *)
Theorem sum_reports_undelivered_summary (self : Cog) (ctx : Context)
    (prompt : str) (w w1 w2 : World) (history_count : Z)
    (target_user : option User) (msg : Message) (rest : list Message)
    (summary : str) (e : Exn) :
  _parse_args ctx prompt w = (Ok (history_count, target_user), w1) ->
  _fetch_messages (channel ctx) history_count target_user = Ok (msg :: rest) ->
  _call_llm self (fst (request_for history_count (msg :: rest)))
    (snd (request_for history_count (msg :: rest))) w1 = (Ok summary, w2) ->
  send_fault ctx summary = Some e ->
  send_fault ctx (error_reply e) = None ->
  sum self ctx prompt w = (Ok tt, delivering (error_reply e) w2).
Proof.
  intros Hp Hf Hc Hs He.
  rewrite (sum_after_parse _ _ _ _ _ _ _ Hp), Hf.
  unfold request_for in Hc. cbn [fst snd] in Hc.
  unfold try_except, bind. rewrite Hc.
  unfold send at 1. rewrite Hs.
  unfold on_error. apply send_delivered. exact He.
Qed.

Lemma sum_reports_undelivered_summary_witness :
  sent (snd (sum verbose (strict_invocation [] (stream short_log)) (lit "3") quiet))
  = [lit "發生錯誤：400 Bad Request"].
Proof.
  erewrite (sum_reports_undelivered_summary verbose
              (strict_invocation [] (stream short_log)) (lit "3") quiet quiet _ 3 None
              (Sample.text_message 1 Sample.bob "first")
              [Sample.text_message 2 Sample.alice "second"]
              (repeat 97%N 2001) (Exception (lit "400 Bad Request"))); cycle 1.
  - vm_compute. reflexivity.
  - vm_compute. reflexivity.
  - rewrite call_llm_run. reflexivity.
  - vm_compute. reflexivity.
  - vm_compute. reflexivity.
  - vm_compute. reflexivity.
Defined.

(** * Further properties of the parser *)

Lemma split_strip_padded (before prompt after : str) :
  blank before = true -> blank after = true ->
  split (strip (before ++ prompt ++ after)) = split (strip prompt).
Proof.
  intros Hb Ha. rewrite !split_strip. unfold split.
  rewrite split_from_leading by assumption.
  apply split_from_trailing. assumption.
Qed.

(** X11: whitespace around the argument string is irrelevant: the parser,
    and with it the whole handler, behaves on a padded argument string as on
    the argument string itself. *)
Theorem parse_args_ignores_padding (self : Cog) (ctx : Context)
    (before prompt after : str) (w : World) :
  blank before = true -> blank after = true ->
  _parse_args ctx (before ++ prompt ++ after) w = _parse_args ctx prompt w
  /\ sum self ctx (before ++ prompt ++ after) w = sum self ctx prompt w.
Proof.
  intros Hb Ha.
  assert (E : forall w', _parse_args ctx (before ++ prompt ++ after) w'
                         = _parse_args ctx prompt w').
  { intros w'. unfold _parse_args.
    rewrite (split_strip_padded _ _ _ Hb Ha). reflexivity. }
  split; [apply E|].
  unfold sum, try_except, bind. rewrite E. reflexivity.
Qed.

Lemma parse_args_ignores_padding_witness :
  _parse_args (Sample.invocation [Sample.bob] Exhausted)
    (lit "  " ++ lit "7 @bob" ++ lit "   ") quiet
  = (Ok (7, Some Sample.bob), quiet).
Proof.
  rewrite (proj1 (parse_args_ignores_padding (Sample.answering "S")
                    (Sample.invocation [Sample.bob] Exhausted)
                    (lit "  ") (lit "7 @bob") (lit "   ") quiet
                    ltac:(vm_compute; reflexivity) ltac:(vm_compute; reflexivity))).
  vm_compute. reflexivity.
Defined.

(** X12: the command without arguments summarises the window of the 20
    newest raw messages: when that window holds a kept message and the LLM
    client answers, the handler makes one request, whose prompt announces 20
    messages and carries the transcript of the kept messages of the window,
    oldest first, and delivers the first choice of the answer as the only
    reply. *)
Theorem sum_default_window (self : Cog) (ctx : Context) (prompt : str)
    (l : list Message) (response : Response) (reply : str) (others : list str)
    (w : World) :
  let kept := rev (filter keeps (firstn 20 l)) in
  let final_prompt := SUMMARY_MESSAGE 20 (join newline (map line_of kept)) in
  let attachments := flat_map references_of kept in
  blank prompt = true ->
  channel ctx = stream l ->
  kept <> [] ->
  get_oai_reply (llm_services self) final_prompt attachments = Ok response ->
  choices response = reply :: others ->
  send_fault ctx reply = None ->
  sum self ctx prompt w
  = (Ok tt, delivering reply (requesting final_prompt attachments w)).
Proof.
  intros kept final_prompt attachments Hb Hc Hk Hr Hch Hs.
  rewrite (sum_after_parse _ _ _ _ _ _ _ (parse_args_blank ctx prompt w Hb)).
  rewrite Hc, fetch_unfiltered_stream.
  change (Z.to_nat 20) with 20%nat. fold kept.
  destruct kept as [|msg rest] eqn:Ek; [contradiction|].
  unfold try_except, bind. rewrite call_llm_run.
  unfold _create_summary_prompt, _format_messages.
  rewrite format_loop_map. cbn [fst snd app].
  fold final_prompt attachments. rewrite Hr, Hch.
  rewrite (send_delivered _ _ _ Hs). reflexivity.
Qed.

Lemma sum_default_window_witness :
  sum (Sample.answering "S") (Sample.invocation [] (stream short_log)) [] quiet
  = (Ok tt,
     {| sent := [lit "S"];
        never_awaited := [];
        llm_calls :=
          [(SUMMARY_MESSAGE 20 (lit "bob: first" ++ newline ++ lit "alice: second"),
            [])] |}).
Proof.
  rewrite (sum_default_window (Sample.answering "S")
             (Sample.invocation [] (stream short_log)) [] short_log
             {| choices := [lit "S"] |} (lit "S") [] quiet
             eq_refl eq_refl ltac:(vm_compute; discriminate) eq_refl eq_refl eq_refl).
  vm_compute. reflexivity.
Defined.

(** ** Decimal numerals *)

Lemma codes_of_string_of_uint (d : Decimal.uint) :
  map N_of_ascii (list_ascii_of_string (NilEmpty.string_of_uint d)) = uint_codes d.
Proof.
  induction d; simpl; try rewrite IHd; reflexivity.
Qed.

Lemma str_of_int_pos (p : positive) :
  str_of_int (Z.pos p) = uint_codes (Pos.to_uint p).
Proof.
  unfold str_of_int. simpl.
  pose proof (DecimalPos.Unsigned.to_uint_nonnil p) as Hn.
  unfold NilZero.string_of_uint.
  destruct (Pos.to_uint p) eqn:E; [contradiction| ..];
    rewrite <- codes_of_string_of_uint; reflexivity.
Qed.

Lemma str_of_int_neg (p : positive) :
  str_of_int (Z.neg p) = 45%N :: uint_codes (Pos.to_uint p).
Proof.
  rewrite <- str_of_int_pos. reflexivity.
Qed.

Lemma to_ascii_uint_codes (d : Decimal.uint) :
  map to_ascii (uint_codes d) = uint_codes d.
Proof.
  induction d; simpl; try rewrite IHd; reflexivity.
Qed.

Lemma solid_uint_codes (d : Decimal.uint) : solid (uint_codes d) = true.
Proof.
  induction d; simpl; try rewrite IHd; reflexivity.
Qed.

Ltac scan_digit IH :=
  cbn [uint_codes scan_digits length Pos.of_uint_acc];
  match goal with
  | |- context [digit_value ?c] =>
      let v := eval vm_compute in (digit_value c) in
      change (digit_value c) with v
  end;
  cbv beta iota;
  rewrite <- Nat.add_succ_comm, <- IH; f_equal; lia.

Lemma scan_uint_codes_acc (d : Decimal.uint) (acc : positive) (digits : nat) :
  scan_digits (Z.pos acc) digits false (uint_codes d)
  = Some (Z.pos (Pos.of_uint_acc d acc), (digits + length (uint_codes d))%nat, []).
Proof.
  revert acc digits.
  induction d as [|d IH|d IH|d IH|d IH|d IH|d IH|d IH|d IH|d IH|d IH];
    intros acc digits; [|scan_digit IH ..].
  simpl. rewrite Nat.add_0_r. reflexivity.
Qed.

Ltac scan_first_digit IH :=
  cbn [uint_codes scan_digits length Pos.of_uint Z.of_N];
  match goal with
  | |- context [digit_value ?c] =>
      let v := eval vm_compute in (digit_value c) in
      change (digit_value c) with v
  end;
  cbv beta iota; rewrite Z.mul_0_l, Z.add_0_l;
  first [ rewrite <- Nat.add_succ_comm; apply IH
        | rewrite scan_uint_codes_acc, Nat.add_succ_comm; reflexivity ].

Lemma scan_uint_codes (d : Decimal.uint) (digits : nat) :
  scan_digits 0 digits false (uint_codes d)
  = Some (Z.of_N (Pos.of_uint d), (digits + length (uint_codes d))%nat, []).
Proof.
  revert digits.
  induction d as [|d IH|d IH|d IH|d IH|d IH|d IH|d IH|d IH|d IH|d IH];
    intros digits; [|scan_first_digit IH ..].
  simpl. rewrite Nat.add_0_r. reflexivity.
Qed.

Ltac each_digit c :=
  let H := fresh "H" in
  assert (H : (c = 48 \/ c = 49 \/ c = 50 \/ c = 51 \/ c = 52 \/ c = 53
               \/ c = 54 \/ c = 55 \/ c = 56 \/ c = 57)%N) by lia;
  repeat (destruct H as [H | H]; [subst c|]); [..|subst c].

Ltac use_scan Hs :=
  match type of Hs with
  | _ = ?result =>
      match goal with
      | |- context [scan_digits ?a ?n ?u ?s] =>
          replace (scan_digits a n u s) with result by (symmetry; exact Hs)
      end
  end.

(** [int] on an ASCII numeral without sign, and with a minus sign. *)
Lemma int_unsigned (c : char) (r : str) (v : Z) (digits : nat) :
  (48 <= c <= 57)%N -> map to_ascii (c :: r) = c :: r ->
  scan_digits 0 0 false (c :: r) = Some (v, digits, []) ->
  digits <> 0%nat -> (digits <=? max_str_digits)%nat = true ->
  int (c :: r) = Some v.
Proof.
  intros Hc Hm Hs Hn Hd. unfold int. rewrite Hm.
  assert (H0 : (digits =? 0)%nat = false) by (apply Nat.eqb_neq; assumption).
  assert (Hmax : (max_str_digits <? digits)%nat = false)
    by (apply Nat.ltb_ge, Nat.leb_le; assumption).
  each_digit c;
    match goal with
    | |- context [skip_spaces (?d :: r)] =>
        change (skip_spaces (d :: r)) with (d :: r)
    end;
    cbv beta iota zeta; use_scan Hs; rewrite H0, Hmax; reflexivity.
Qed.

Lemma int_negative (c : char) (r : str) (v : Z) (digits : nat) :
  (48 <= c <= 57)%N -> map to_ascii (c :: r) = c :: r ->
  scan_digits 0 0 false (c :: r) = Some (v, digits, []) ->
  digits <> 0%nat -> (digits <=? max_str_digits)%nat = true ->
  int (45%N :: c :: r) = Some (- v).
Proof.
  intros Hc Hm Hs Hn Hd. unfold int.
  change (map to_ascii (45%N :: c :: r)) with (45%N :: map to_ascii (c :: r)).
  rewrite Hm.
  change (skip_spaces (45%N :: c :: r)) with (45%N :: c :: r).
  assert (H0 : (digits =? 0)%nat = false) by (apply Nat.eqb_neq; assumption).
  assert (Hmax : (max_str_digits <? digits)%nat = false)
    by (apply Nat.ltb_ge, Nat.leb_le; assumption).
  each_digit c; cbv beta iota zeta; use_scan Hs; rewrite H0, Hmax; reflexivity.
Qed.

Lemma uint_codes_head (d : Decimal.uint) :
  d <> Decimal.Nil ->
  exists c r, uint_codes d = c :: r /\ (48 <= c <= 57)%N.
Proof.
  intros Hd. destruct d; [contradiction| ..]; simpl; eexists _, _;
    (split; [reflexivity|lia]).
Qed.

Lemma int_uint_codes (p : positive) :
  (length (uint_codes (Pos.to_uint p)) <=? max_str_digits)%nat = true ->
  int (uint_codes (Pos.to_uint p)) = Some (Z.pos p)
  /\ int (45%N :: uint_codes (Pos.to_uint p)) = Some (Z.neg p).
Proof.
  intros Hd.
  pose proof (scan_uint_codes (Pos.to_uint p) 0) as Hs.
  rewrite DecimalPos.Unsigned.of_to in Hs. cbn [Z.of_N Nat.add] in Hs.
  pose proof (to_ascii_uint_codes (Pos.to_uint p)) as Hm.
  destruct (uint_codes_head _ (DecimalPos.Unsigned.to_uint_nonnil p))
    as (c & r & E & Hc).
  rewrite E in *.
  assert (Hn : length (c :: r) <> 0%nat) by discriminate.
  split.
  - apply (int_unsigned c r _ _ Hc Hm Hs Hn Hd).
  - apply (int_negative c r _ _ Hc Hm Hs Hn Hd).
Qed.

(** X13: the parser reads back what Python prints: for every integer [k]
    whose decimal form has at most 4300 digits, [int(str(k))] is [k], and
    the argument string [str(k)] (zero and negative numbers included) makes
    the parser return the count [k] and no target user, without any
    notice. *)
Theorem parse_args_reads_decimal (ctx : Context) (k : Z) (w : World) :
  (decimal_digits k <=? max_str_digits)%nat = true ->
  int (str_of_int k) = Some k
  /\ _parse_args ctx (str_of_int k) w = (Ok (k, None), w).
Proof.
  intros Hd.
  assert (Hint : int (str_of_int k) = Some k).
  { destruct k as [|p|p].
    - vm_compute. reflexivity.
    - unfold decimal_digits in Hd. cbn [Z.abs] in Hd.
      rewrite str_of_int_pos in *. apply int_uint_codes. assumption.
    - unfold decimal_digits in Hd. cbn [Z.abs] in Hd.
      rewrite str_of_int_neg. rewrite str_of_int_pos in Hd.
      apply int_uint_codes. assumption. }
  split; [exact Hint|].
  assert (Hsolid : solid (str_of_int k) = true).
  { destruct k as [|p|p].
    - reflexivity.
    - rewrite str_of_int_pos. apply solid_uint_codes.
    - rewrite str_of_int_neg. cbn [solid forallb].
      change (negb (isspace 45%N)) with true.
      apply (solid_uint_codes (Pos.to_uint p)). }
  assert (Hne : str_of_int k <> []).
  { destruct k as [|p|p].
    - discriminate.
    - rewrite str_of_int_pos.
      destruct (uint_codes_head _ (DecimalPos.Unsigned.to_uint_nonnil p))
        as (c & r & -> & _). discriminate.
    - rewrite str_of_int_neg. discriminate. }
  rewrite (parse_args_numeric ctx _ _ [] k w
             (first_token_alone _ Hne Hsolid) Hint).
  reflexivity.
Qed.

Lemma parse_args_reads_decimal_witness :
  int (str_of_int (-15)) = Some (-15)
  /\ _parse_args (Sample.invocation [Sample.bob] Exhausted) (lit "-15") quiet
     = (Ok (-15, None), quiet).
Proof.
  destruct (parse_args_reads_decimal (Sample.invocation [Sample.bob] Exhausted)
              (-15) quiet ltac:(vm_compute; reflexivity)) as [Hi Hp].
  split; [exact Hi|].
  change (lit "-15") with (str_of_int (-15)). exact Hp.
Defined.

(** * The order of the fetched messages *)

Lemma history_decompose (h : History) :
  h = stream (yielded h) \/ exists e, h = prepend (yielded h) (Fault e).
Proof.
  induction h as [|msg rest [E | [e E]]|e]; simpl.
  - left. reflexivity.
  - left. rewrite <- E. reflexivity.
  - right. exists e. rewrite <- E. reflexivity.
  - right. exists e. reflexivity.
Qed.

Lemma fetch_ok_yielded (h : History) (history_count : Z)
    (target_user : option User) (r : list Message) :
  _fetch_messages h history_count target_user = Ok r ->
  exists k f, r = rev (firstn k (filter f (yielded h)))
              \/ r = rev (filter f (firstn k (yielded h))).
Proof.
  intros H. destruct (history_decompose h) as [E | [e E]];
    rewrite E in H; destruct target_user as [u|].
  - destruct (Z.le_gt_cases 1 history_count) as [Hn|Hn].
    + rewrite fetch_filtered_stream in H by assumption.
      injection H as <-. eauto.
    + unfold _fetch_messages, history in H.
      rewrite stream_prepend, scan_for_nonpositive in H by lia.
      simpl in H. injection H as <-.
      exists (length (filter (keeps_from u) (yielded h))), (keeps_from u).
      left. rewrite firstn_all. reflexivity.
  - rewrite fetch_unfiltered_stream in H. injection H as <-. eauto.
  - destruct (Z.le_gt_cases 1 history_count) as [Hn|Hn].
    + destruct (Nat.le_gt_cases (Z.to_nat history_count)
                  (length (filter (keeps_from u) (yielded h)))) as [Hc|Hc].
      * rewrite fetch_filtered_early_stop in H by assumption.
        injection H as <-. eauto.
      * rewrite fetch_filtered_fault_early in H by assumption. discriminate.
    + unfold _fetch_messages, history in H.
      rewrite scan_for_nonpositive in H by lia. discriminate.
  - destruct (Nat.le_gt_cases (Z.to_nat history_count) (length (yielded h)))
      as [Hc|Hc].
    + rewrite fetch_unfiltered_within in H by assumption.
      injection H as <-. eauto.
    + rewrite fetch_unfiltered_fault_inside in H by assumption. discriminate.
Qed.

(** X14: whatever the history does, a fetch that returns has selected its
    messages among those the history produced, and when the history produces
    them newest first (by message id), the result is ordered oldest
    first. *)
Theorem fetch_result_in_order (h : History) (history_count : Z)
    (target_user : option User) (r : list Message) :
  _fetch_messages h history_count target_user = Ok r ->
  incl r (yielded h)
  /\ (newest_first (yielded h) -> oldest_first r).
Proof.
  intros H. destruct (fetch_ok_yielded _ _ _ _ H) as (k & f & [-> | ->]).
  - split.
    + intros msg Hin. apply in_rev in Hin.
      assert (Hin' : In msg (filter f (yielded h))).
      { rewrite <- (firstn_skipn k (filter f (yielded h))).
        apply in_or_app. left. exact Hin. }
      apply filter_In in Hin'. tauto.
    + apply oldest_first_rev_firstn_filter.
  - split.
    + intros msg Hin. apply in_rev in Hin. apply filter_In in Hin as [Hin _].
      rewrite <- (firstn_skipn k (yielded h)). apply in_or_app. left. exact Hin.
    + apply oldest_first_rev_filter_firstn.
Qed.

Lemma fetch_result_in_order_witness :
  exists r,
    _fetch_messages (prepend busy_log (Fault (Exception (lit "HTTP 500"))))
      3 None = Ok r
    /\ oldest_first r.
Proof.
  assert (E : _fetch_messages (prepend busy_log (Fault (Exception (lit "HTTP 500"))))
                3 None
              = Ok [ Sample.text_message 3 Sample.alice "two";
                     Sample.text_message 4 Sample.bob "noise";
                     Sample.text_message 5 Sample.alice "three" ])
    by (vm_compute; reflexivity).
  eexists. split; [exact E|].
  apply (proj2 (fetch_result_in_order _ _ _ _ E)).
  sorted_by_ids.
Defined.

(** * The user-filtered fetch *)

Lemma fetch_filtered_ok (target_user : User) (history_count : Z)
    (h : History) (r : list Message) :
  _fetch_messages h history_count (Some target_user) = Ok r ->
  (1 <= history_count
   /\ r = rev (firstn (Z.to_nat history_count)
                 (filter (keeps_from target_user) (yielded h))))
  \/ (history_count <= 0
      /\ r = rev (filter (keeps_from target_user) (yielded h))).
Proof.
  intros H. destruct (history_decompose h) as [E | [e E]]; rewrite E in H.
  - destruct (Z.le_gt_cases 1 history_count) as [Hn|Hn].
    + rewrite fetch_filtered_stream in H by assumption.
      injection H as <-. left. auto.
    + unfold _fetch_messages, history in H.
      rewrite stream_prepend, scan_for_nonpositive in H by lia.
      simpl in H. injection H as <-. right. split; [lia|reflexivity].
  - destruct (Z.le_gt_cases 1 history_count) as [Hn|Hn].
    + destruct (Nat.le_gt_cases (Z.to_nat history_count)
                  (length (filter (keeps_from target_user) (yielded h))))
        as [Hc|Hc].
      * rewrite fetch_filtered_early_stop in H by assumption.
        injection H as <-. left. auto.
      * rewrite fetch_filtered_fault_early in H by assumption. discriminate.
    + unfold _fetch_messages, history in H.
      rewrite scan_for_nonpositive in H by lia. discriminate.
Qed.

(** C5: for every user-filtered fetch that returns, whatever the history
    and the count, every returned message has the author id of
    [target_user], a non-bot author and a text that does not start with
    ["!sum"], and the sequence is ordered oldest-first when the history
    produces its messages newest first; for a count of the data model
    ([history_count >= 1]) the sequence has at most [history_count]
    messages: it holds the [history_count] newest qualifying messages,
    reversed.  The scan stops as soon as [history_count] qualifying messages
    are collected, whatever the rest of the history would produce, and on a
    channel that can be read to its end the fetch always returns. *)
Theorem fetch_filtered_newest (target_user : User) (history_count : Z) :
  (forall h r,
     _fetch_messages h history_count (Some target_user) = Ok r ->
     Forall (fun msg =>
               user_id (author msg) = user_id target_user
               /\ bot (author msg) = false
               /\ startswith (content msg) (lit "!sum") = false) r
     /\ (newest_first (yielded h) -> oldest_first r)
     /\ (1 <= history_count ->
         Z.of_nat (length r) <= history_count
         /\ r = rev (firstn (Z.to_nat history_count)
                       (filter (keeps_from target_user) (yielded h)))))
  /\ (forall l h,
        1 <= history_count ->
        (Z.to_nat history_count
           <= length (filter (keeps_from target_user) l))%nat ->
        _fetch_messages (prepend l h) history_count (Some target_user)
        = Ok (rev (firstn (Z.to_nat history_count)
                     (filter (keeps_from target_user) l))))
  /\ (forall l,
        exists r,
          _fetch_messages (stream l) history_count (Some target_user) = Ok r).
Proof.
  split; [|split].
  - intros h r H.
    destruct (fetch_filtered_ok _ _ _ _ H) as [[Hn ->] | [Hn ->]].
    + split; [|split].
      * eapply Forall_impl;
          [|apply (Forall_rev_firstn_filter (keeps_from target_user))].
        intros msg Hm. apply keeps_from_true, Hm.
      * apply oldest_first_rev_firstn_filter.
      * intros _. split; [|reflexivity]. rewrite length_rev.
        pose proof (firstn_le_length (Z.to_nat history_count)
                      (filter (keeps_from target_user) (yielded h))). lia.
    + split; [|split].
      * eapply Forall_impl;
          [|apply (Forall_rev_filter (keeps_from target_user))].
        intros msg Hm. apply keeps_from_true, Hm.
      * intros Hs. unfold oldest_first.
        apply (StronglySorted_rev _ (fun a b => msg_id b < msg_id a)).
        apply StronglySorted_filter, Hs.
      * intros Hp. lia.
  - intros l h Hn Hc. apply fetch_filtered_early_stop; assumption.
  - intros l. destruct (Z.le_gt_cases 1 history_count) as [Hn|Hn].
    + eexists. apply fetch_filtered_stream. assumption.
    + eexists. unfold _fetch_messages, history.
      rewrite stream_prepend, scan_for_nonpositive by lia. reflexivity.
Qed.

Lemma fetch_filtered_newest_witness :
  let h := prepend busy_log (Fault (Exception (lit "HTTP 500"))) in
  let r := [ Sample.text_message 3 Sample.alice "two";
             Sample.text_message 5 Sample.alice "three" ] in
  _fetch_messages h 2 (Some Sample.alice) = Ok r
  /\ Forall (fun msg =>
               user_id (author msg) = user_id Sample.alice
               /\ bot (author msg) = false
               /\ startswith (content msg) (lit "!sum") = false) r
  /\ oldest_first r
  /\ Z.of_nat (length r) <= 2.
Proof.
  intros h r.
  assert (E : _fetch_messages h 2 (Some Sample.alice) = Ok r).
  { unfold h.
    rewrite (proj1 (proj2 (fetch_filtered_newest Sample.alice 2)) busy_log
               (Fault (Exception (lit "HTTP 500"))) ltac:(lia)
               ltac:(vm_compute; repeat constructor)).
    vm_compute. reflexivity. }
  destruct (proj1 (fetch_filtered_newest Sample.alice 2) h r E)
    as (Hall & Hsorted & Hlen).
  split; [exact E|]. split; [exact Hall|]. split.
  - apply Hsorted. sorted_by_ids.
  - apply Hlen. lia.
Defined.
